(** * ERC1155 plugin service: a shallow embedding of [erc1155.service.ts]

    The class [Erc1155Service] keeps a list of token descriptors and offers
    seven methods.  One of them ([getTokenInfoBySymbol]) scans the list; the
    other six forward to a wallet client ([resolveAddress], [read],
    [sendTransaction]) inside a [try]/[catch] that rethrows a fresh [Error].

    The embedding keeps the shape of the TypeScript:
    - JavaScript values are an inductive type, objects passed to the wallet
      client are records;
    - [async] methods are computations in a state and exception monad whose
      state holds the service object ([this]), the wallet client's internal
      state and the trace of the calls made on the wallet client;
    - [await] is monadic bind, [throw] and [try]/[catch] are the monad's
      [throw] and [tryCatch]. *)

From Stdlib Require Import Ascii.
From stdpp Require Import base option list strings gmap pretty.

(** ** JavaScript values and thrown values *)

(** The values that cross the wallet-client boundary untyped ([unknown],
    [any]) or whose TypeScript type is declared outside the service file.
    [VNumber n] is a number whose value is the integer [n]. *)
#[warnings="-register-all"]
Inductive JsValue : Type :=
| VUndefined
| VBool (b : bool)
| VNumber (n : Z)
| VBigInt (z : Z)
| VString (s : string)
| VArray (elems : list JsValue)
| VObject (props : list (string * JsValue)).

(** What [throw] can carry.  [ErrorObject name message] is an [Error] (or a
    subclass instance) with these two properties; [NonError s] is any other
    thrown value that converts to a string, kept by the string
    [String(value)] yields for it; [Unconvertible raised] is a thrown value
    whose conversion to a string itself throws [raised] (a [Symbol], for
    which it is a [TypeError], or an object whose [toString] throws). *)
Inductive Thrown : Type :=
| ErrorObject (name message : string)
| NonError (rendering : string)
| Unconvertible (raised : Thrown).

(** [Error(message)], as called by the service (without [new]). *)
Definition Error (message : string) : Thrown := ErrorObject "Error" message.

(** The string of a thrown value that converts to one: for an [Error] it is
    [Error.prototype.toString].  (On an [Unconvertible] value there is no
    string; [String_of] below is what the code runs.) *)
Definition toString (e : Thrown) : string :=
  match e with
  | ErrorObject name message =>
      if decide (name = "") then message
      else if decide (message = "") then name
      else name +:+ ": " +:+ message
  | NonError rendering => rendering
  | Unconvertible _ => ""
  end.

(** [String(error)], as a template literal applies it: the string, or what
    the conversion throws. *)
Definition String_of (e : Thrown) : Thrown + string :=
  match e with
  | Unconvertible raised => inl raised
  | _ => inr (toString e)
  end.

(** [`${text}${error}`] *)
Definition template (text : string) (error : Thrown) : Thrown + string :=
  match String_of error with
  | inl raised => inl raised
  | inr s => inr (text +:+ s)
  end.

(** The [message] property read off a caught value ([undefined] on a value
    that is not an [Error]). *)
Definition message_of (e : Thrown) : option string :=
  match e with
  | ErrorObject _ message => Some message
  | NonError _ | Unconvertible _ => None
  end.

(** [t.includes(s)] on strings. *)
Definition contains (t s : string) : Prop :=
  ∃ before after, t = before +:+ s +:+ after.

(** ** What the service imports *)

(** [String.prototype.toLowerCase], the [Number()] conversion (it rounds to
    a double) and the constant [ERC1155_ABI] of [./abi] are not defined in
    the service file; the service is embedded over any choice of them. *)
Class JsEnv : Type := {
  toLowerCase : string → string;
  Number : JsValue → JsValue;
  ERC1155_ABI : JsValue;
}.

(** ** Token descriptors *)

(** Modelled from the spec: the type [Token] of [./token] is not part of the
    sources.  A descriptor has a symbol, a human name, decimals, a metadata
    URI, a total supply, a token id and a mapping from chain identifier to
    contract address; the service reads the latter as
    [token.chains[chain.id]?.contractAddress]. *)
Record ChainEntry : Type := { contractAddress : string }.

Record Token : Type := {
  symbol : string;
  name : JsValue;
  decimals : JsValue;
  uri : JsValue;
  totalSupply : JsValue;
  id : JsValue;
  chains : gmap N ChainEntry;
}.

(** [walletClient.getChain()] returns an object with a numeric [id]. *)
Record Chain : Type := { chain_id : N }.

(** The object literal returned by [getTokenInfoBySymbol]. *)
Module TokenInfo.
Record t : Type := {
  symbol : string;
  contractAddress : string;
  id : JsValue;
  decimals : JsValue;
  name : JsValue;
  uri : JsValue;
  totalSupply : JsValue;
}.
End TokenInfo.

(** ** Parameter objects (from [./parameters], as the methods use them) *)

Module GetTokenInfoBySymbolParameters.
Record t : Type := { symbol : string }.
End GetTokenInfoBySymbolParameters.

Module BalanceOfParameters.
Record t : Type := { tokenAddress : string; owner : string; id : JsValue }.
End BalanceOfParameters.

Module BalanceOfBatchParameters.
Record t : Type :=
  { tokenAddress : string; owners : list string; ids : list JsValue }.
End BalanceOfBatchParameters.

Module SafeTransferFromParameters.
Record t : Type := {
  tokenAddress : string;
  from : string;
  to : string;
  id : JsValue;
  value : JsValue;
  data : option string;
}.
End SafeTransferFromParameters.

Module SafeBatchTransferFromParameters.
Record t : Type := {
  tokenAddress : string;
  from : string;
  to : string;
  ids : list JsValue;
  values : list JsValue;
  data : option string;
}.
End SafeBatchTransferFromParameters.

Module SetApprovalForAllParameters.
Record t : Type :=
  { tokenAddress : string; operator : string; approved : bool }.
End SetApprovalForAllParameters.

Module IsApprovedForAllParameters.
Record t : Type :=
  { tokenAddress : string; owner : string; operator : string }.
End IsApprovedForAllParameters.

(** ** The wallet client *)

Abbreviation Outcome A := (Thrown + A)%type.

(** The argument of [walletClient.read]. *)
Module ReadCall.
Record t : Type := {
  address : string;
  abi : JsValue;
  functionName : string;
  args : list JsValue;
}.
End ReadCall.

(** The argument of [walletClient.sendTransaction]. *)
Module TxCall.
Record t : Type := {
  to : string;
  abi : JsValue;
  functionName : string;
  args : list JsValue;
}.
End TxCall.

(** What [read] resolves to: the service reads its [value] property. *)
Record ReadResult : Type := { value : JsValue }.

(** What [sendTransaction] resolves to: the service reads its [hash]. *)
Record TxResult : Type := { hash : string }.

(** A read result seen as a JavaScript value: an object with the one
    property [value]. *)
Definition ReadResult_object (r : ReadResult) : JsValue :=
  VObject [("value", value r)].


(** An [EVMWalletClient] is an object with a state of its own ([W]); each
    method either returns or throws (rejects), and may change that state.
    Two more components say how and when a call of [resolveAddress] fails,
    which shows when several calls are started before any is awaited:
    [resolveAddress_throws identifier w] tells whether a failing call throws
    before it returns a promise ([true]) or returns a promise that rejects
    ([false]); [rejects_first rejected w] is the position, in a list of
    rejected promises, of the one that rejects first in time. *)
Record EVMWalletClient (W : Type) : Type := {
  getChain : W → Outcome Chain * W;
  resolveAddress : string → W → Outcome string * W;
  read : ReadCall.t → W → Outcome ReadResult * W;
  sendTransaction : TxCall.t → W → Outcome TxResult * W;
  resolveAddress_throws : string → W → bool;
  rejects_first : list Thrown → W → nat;
}.
Arguments getChain {W}.
Arguments resolveAddress {W}.
Arguments read {W}.
Arguments sendTransaction {W}.
Arguments resolveAddress_throws {W}.
Arguments rejects_first {W}.

(** The calls a method makes on the wallet client.  The trace lists them in
    the order made, each with what it threw ([None] when it returned). *)
Inductive WalletCall : Type :=
| CallGetChain
| CallResolveAddress (identifier : string)
| CallRead (call : ReadCall.t)
| CallSendTransaction (call : TxCall.t).

Definition failure {A} (r : Outcome A) : option Thrown :=
  match r with
  | inl e => Some e
  | inr _ => None
  end.

Abbreviation Trace := (list (WalletCall * option Thrown)).

(** ** The service object and the monad of its methods *)

Record Erc1155Service : Type := { tokens : list Token }.

(** [constructor({ tokens }: { tokens?: Token[] } = {})]:
    [this.tokens = tokens ?? []]. *)
Definition constructor (tokens : option (list Token)) : Erc1155Service :=
  {| tokens := default [] tokens |}.

Record Heap (W : Type) : Type := {
  this : Erc1155Service;
  client : W;
  trace : Trace;
}.
Arguments this {W}.
Arguments client {W}.
Arguments trace {W}.
Arguments Build_Heap {W}.

Definition M (W A : Type) : Type := Heap W → Outcome A * Heap W.

Section Monad.
Context {W : Type}.

Definition ret {A} (a : A) : M W A := λ h, (inr a, h).

Definition throw {A} (e : Thrown) : M W A := λ h, (inl e, h).

Definition bind {A B} (m : M W A) (k : A → M W B) : M W B :=
  λ h, match m h with
       | (inr a, h') => k a h'
       | (inl e, h') => (inl e, h')
       end.

(** [try { body } catch (error) { handler }] *)
Definition tryCatch {A} (body : M W A) (handler : Thrown → M W A) : M W A :=
  λ h, match body h with
       | (inr a, h') => (inr a, h')
       | (inl e, h') => handler e h'
       end.

(** [this.tokens] *)
Definition this_tokens : M W (list Token) := λ h, (inr (tokens (this h)), h).

(** A method call on the wallet client: the call is appended to the trace,
    the client moves to its next state, and the outcome is delivered. *)
Definition call {A} (c : WalletCall) (method : W → Outcome A * W) : M W A :=
  λ h, let '(r, w) := method (client h) in
       (r, {| this := this h; client := w; trace := trace h ++ [(c, failure r)] |}).

(** A call that is started but not awaited: when it returns a promise, the
    outcome of the promise is kept as a value; when it throws before
    returning one, the exception is thrown where the call is made. *)
Definition promise {A} (throws_synchronously : bool) (m : M W A)
  : M W (Outcome A) :=
  λ h, match m h with
       | (inr a, h') => (inr (inr a), h')
       | (inl e, h') =>
           if throws_synchronously then (inl e, h') else (inr (inl e), h')
       end.

(** A step that touches neither the service nor the wallet client. *)
Definition of_outcome {A} (r : Outcome A) : M W A := λ h, (r, h).

Fixpoint mapM {A B} (f : A → M W B) (l : list A) : M W (list B) :=
  match l with
  | [] => ret []
  | a :: l' => bind (f a) (λ b, bind (mapM f l') (λ bs, ret (b :: bs)))
  end.
End Monad.

Notation "x <- m ;; k" := (bind m (λ x, k))
  (at level 100, m at next level, right associativity,
   format "'[v' x  <-  m  ;;  '/' k ']'").

(** The reasons of the rejected promises of a list, in the order of the
    list. *)
Definition rejections {A} (promises : list (Outcome A)) : list Thrown :=
  omap failure promises.

(** The promises of a list, once all are settled: the values in the order of
    the promises when all are fulfilled, the reasons of the rejected ones
    (the first in the list, and the others) when some are not. *)
Fixpoint settle_all {A} (promises : list (Outcome A))
  : Thrown * list Thrown + list A :=
  match promises with
  | [] => inr []
  | inl e :: rest => inl (e, rejections rest)
  | inr a :: rest =>
      match settle_all rest with
      | inl rejected => inl rejected
      | inr l => inr (a :: l)
      end
  end.

(** The reason at position [i] among the rejected ones (the first one when
    there is no such position). *)
Definition first_in_time (i : nat) (rejected : Thrown * list Thrown) : Thrown :=
  default rejected.1 ((rejected.1 :: rejected.2) !! i).

(** [Promise.all] over promises that have all been started: it fulfils with
    the values in the order of the promises, and rejects with the reason of
    the promise that rejects first in time, which the wallet client
    decides. *)
Definition Promise_all {W A} (rejects_first : list Thrown → W → nat)
    (promises : list (Outcome A)) : M W (list A) :=
  λ h, match settle_all promises with
       | inr l => (inr l, h)
       | inl rejected =>
           (inl (first_in_time
                   (rejects_first (rejected.1 :: rejected.2) (client h))
                   rejected), h)
       end.

(** ** The methods of [Erc1155Service] *)

Section Service.
Context `{JsEnv} {W : Type}.

Implicit Types (walletClient : EVMWalletClient W).

(** [await walletClient.resolveAddress(identifier)] and the like. *)
Definition await_getChain walletClient : M W Chain :=
  call CallGetChain (getChain walletClient).

Definition await_resolveAddress walletClient (identifier : string)
  : M W string :=
  call (CallResolveAddress identifier) (resolveAddress walletClient identifier).

(** [walletClient.resolveAddress(identifier)], not awaited. *)
Definition start_resolveAddress walletClient (identifier : string)
  : M W (Outcome string) :=
  λ h, promise (resolveAddress_throws walletClient identifier (client h))
               (await_resolveAddress walletClient identifier) h.

Definition await_read walletClient (c : ReadCall.t) : M W ReadResult :=
  call (CallRead c) (read walletClient c).

Definition await_sendTransaction walletClient (c : TxCall.t) : M W TxResult :=
  call (CallSendTransaction c) (sendTransaction walletClient c).

(** [[token.symbol, token.symbol.toLowerCase()].includes(s)] *)
Definition symbol_matches (s : string) (token : Token) : bool :=
  bool_decide (s ∈ [symbol token; toLowerCase (symbol token)]).

(** [token.chains[chain.id]?.contractAddress] *)
Definition contractAddress_on (token : Token) (chain : Chain)
  : option string :=
  contractAddress <$> (chains token !! chain_id chain).

(** [!contractAddress]: [undefined] and the empty string are falsy. *)
Definition falsy (contractAddress : option string) : bool :=
  match contractAddress with
  | None => true
  | Some a => bool_decide (a = "")
  end.

Definition not_found_message (s : string) : string :=
  "Token with symbol " +:+ s +:+ " not found".

(** [`${chain.id}`]: a chain id is a natural number, printed in decimal. *)
Definition not_found_on_chain_message (s : string) (chain : Chain) : string :=
  "Token with symbol " +:+ s +:+ " not found on chain "
    +:+ pretty (chain_id chain).

(** In the last branch [contractAddress] is a string, and not the empty
    one. *)
Definition getTokenInfoBySymbol walletClient
    (parameters : GetTokenInfoBySymbolParameters.t) : M W TokenInfo.t :=
  let s := GetTokenInfoBySymbolParameters.symbol parameters in
  tokens <- this_tokens ;;
  match find (symbol_matches s) tokens with
  | None => throw (Error (not_found_message s))
  | Some token =>
      chain <- await_getChain walletClient ;;
      let contractAddress := contractAddress_on token chain in
      if falsy contractAddress
      then throw (Error (not_found_on_chain_message s chain))
      else ret {| TokenInfo.symbol := symbol token;
                  TokenInfo.contractAddress := default "" contractAddress;
                  TokenInfo.id := id token;
                  TokenInfo.decimals := decimals token;
                  TokenInfo.name := name token;
                  TokenInfo.uri := uri token;
                  TokenInfo.totalSupply := totalSupply token |}
  end.

Definition balanceOf walletClient (parameters : BalanceOfParameters.t)
  : M W JsValue :=
  tryCatch
    (resolvedWalletAddress <-
       await_resolveAddress walletClient (BalanceOfParameters.owner parameters) ;;
     rawBalance <- await_read walletClient
       {| ReadCall.address := BalanceOfParameters.tokenAddress parameters;
          ReadCall.abi := ERC1155_ABI;
          ReadCall.functionName := "balanceOf";
          ReadCall.args := [VString resolvedWalletAddress;
                            BalanceOfParameters.id parameters] |} ;;
     ret (Number (value rawBalance)))
    (λ error,
       message <- of_outcome (template "Failed to fetch balance: " error) ;;
       throw (Error message)).

(** [(rawBalances.value as any[]).map(...)]: the cast checks nothing, and
    calling [map] on a value that has none throws a [TypeError] (the text
    is the engine's). *)
Definition array_map (f : JsValue → JsValue) (v : JsValue)
  : Outcome (list JsValue) :=
  match v with
  | VArray elems => inr (f <$> elems)
  | VUndefined =>
      inl (ErrorObject "TypeError"
             "Cannot read properties of undefined (reading 'map')")
  | _ => inl (ErrorObject "TypeError" "rawBalances.value.map is not a function")
  end.

Definition balanceOfBatch walletClient (parameters : BalanceOfBatchParameters.t)
  : M W (list JsValue) :=
  tryCatch
    (promises <- mapM (start_resolveAddress walletClient)
                     (BalanceOfBatchParameters.owners parameters) ;;
     resolvedOwners <- Promise_all (rejects_first walletClient) promises ;;
     rawBalances <- await_read walletClient
       {| ReadCall.address := BalanceOfBatchParameters.tokenAddress parameters;
          ReadCall.abi := ERC1155_ABI;
          ReadCall.functionName := "balanceOfBatch";
          ReadCall.args := [VArray (VString <$> resolvedOwners);
                            VArray (BalanceOfBatchParameters.ids parameters)] |} ;;
     balances <- of_outcome (array_map Number (value rawBalances)) ;;
     ret balances)
    (λ error,
       message <- of_outcome (template "Failed to fetch batch balances: " error) ;;
       throw (Error message)).

Definition safeTransferFrom walletClient
    (parameters : SafeTransferFromParameters.t) : M W string :=
  tryCatch
    (from <- await_resolveAddress walletClient
              (SafeTransferFromParameters.from parameters) ;;
     to <- await_resolveAddress walletClient
            (SafeTransferFromParameters.to parameters) ;;
     hash_ <- await_sendTransaction walletClient
       {| TxCall.to := SafeTransferFromParameters.tokenAddress parameters;
          TxCall.abi := ERC1155_ABI;
          TxCall.functionName := "safeTransferFrom";
          TxCall.args :=
            [VString from; VString to;
             SafeTransferFromParameters.id parameters;
             SafeTransferFromParameters.value parameters;
             VString (default "0x" (SafeTransferFromParameters.data parameters))] |} ;;
     ret (hash hash_))
    (λ error,
       message <- of_outcome (template "Failed to transfer: " error) ;;
       throw (Error message)).

Definition safeBatchTransferFrom walletClient
    (parameters : SafeBatchTransferFromParameters.t) : M W string :=
  tryCatch
    (from <- await_resolveAddress walletClient
              (SafeBatchTransferFromParameters.from parameters) ;;
     to <- await_resolveAddress walletClient
            (SafeBatchTransferFromParameters.to parameters) ;;
     hash_ <- await_sendTransaction walletClient
       {| TxCall.to := SafeBatchTransferFromParameters.tokenAddress parameters;
          TxCall.abi := ERC1155_ABI;
          TxCall.functionName := "safeBatchTransferFrom";
          TxCall.args :=
            [VString from; VString to;
             VArray (SafeBatchTransferFromParameters.ids parameters);
             VArray (SafeBatchTransferFromParameters.values parameters);
             VString (default "0x"
                        (SafeBatchTransferFromParameters.data parameters))] |} ;;
     ret (hash hash_))
    (λ error,
       message <- of_outcome (template "Failed to batch transfer: " error) ;;
       throw (Error message)).

Definition setApprovalForAll walletClient
    (parameters : SetApprovalForAllParameters.t) : M W string :=
  tryCatch
    (operator <- await_resolveAddress walletClient
                  (SetApprovalForAllParameters.operator parameters) ;;
     hash_ <- await_sendTransaction walletClient
       {| TxCall.to := SetApprovalForAllParameters.tokenAddress parameters;
          TxCall.abi := ERC1155_ABI;
          TxCall.functionName := "setApprovalForAll";
          TxCall.args :=
            [VString operator;
             VBool (SetApprovalForAllParameters.approved parameters)] |} ;;
     ret (hash hash_))
    (λ error,
       message <- of_outcome (template "Failed to set approval: " error) ;;
       throw (Error message)).

Definition isApprovedForAll walletClient
    (parameters : IsApprovedForAllParameters.t) : M W ReadResult :=
  tryCatch
    (owner <- await_resolveAddress walletClient
               (IsApprovedForAllParameters.owner parameters) ;;
     operator <- await_resolveAddress walletClient
                  (IsApprovedForAllParameters.operator parameters) ;;
     approved <- await_read walletClient
       {| ReadCall.address := IsApprovedForAllParameters.tokenAddress parameters;
          ReadCall.abi := ERC1155_ABI;
          ReadCall.functionName := "isApprovedForAll";
          ReadCall.args := [VString owner; VString operator] |} ;;
     ret approved)
    (λ error,
       message <- of_outcome (template "Failed to fetch balance: " error) ;;
       throw (Error message)).
End Service.

(** ** Calling the methods one after the other *)

(** One call of a method of the service, with its parameter object. *)
Inductive Invocation : Type :=
| GetTokenInfoBySymbol (parameters : GetTokenInfoBySymbolParameters.t)
| BalanceOf (parameters : BalanceOfParameters.t)
| BalanceOfBatch (parameters : BalanceOfBatchParameters.t)
| SafeTransferFrom (parameters : SafeTransferFromParameters.t)
| SafeBatchTransferFrom (parameters : SafeBatchTransferFromParameters.t)
| SetApprovalForAll (parameters : SetApprovalForAllParameters.t)
| IsApprovedForAll (parameters : IsApprovedForAllParameters.t).

(** The text each [catch] block puts before the caught error; the lookup has
    no [catch] block. *)
Definition catch_prefix (i : Invocation) : option string :=
  match i with
  | GetTokenInfoBySymbol _ => None
  | BalanceOf _ => Some "Failed to fetch balance: "
  | BalanceOfBatch _ => Some "Failed to fetch batch balances: "
  | SafeTransferFrom _ => Some "Failed to transfer: "
  | SafeBatchTransferFrom _ => Some "Failed to batch transfer: "
  | SetApprovalForAll _ => Some "Failed to set approval: "
  | IsApprovedForAll _ => Some "Failed to fetch balance: "
  end.

Section Invoke.
Context `{JsEnv} {W : Type}.

(** Forget what a method returned, keep what it threw. *)
Definition thrown_by {A} (m : M W A) : Heap W → option Thrown * Heap W :=
  λ h, let '(r, h') := m h in (failure r, h').

Definition invoke (walletClient : EVMWalletClient W) (i : Invocation)
  : Heap W → option Thrown * Heap W :=
  match i with
  | GetTokenInfoBySymbol p => thrown_by (getTokenInfoBySymbol walletClient p)
  | BalanceOf p => thrown_by (balanceOf walletClient p)
  | BalanceOfBatch p => thrown_by (balanceOfBatch walletClient p)
  | SafeTransferFrom p => thrown_by (safeTransferFrom walletClient p)
  | SafeBatchTransferFrom p => thrown_by (safeBatchTransferFrom walletClient p)
  | SetApprovalForAll p => thrown_by (setApprovalForAll walletClient p)
  | IsApprovedForAll p => thrown_by (isApprovedForAll walletClient p)
  end.

(** A caller that makes the given calls in turn, each possibly with a
    wallet client of its own, and carries on when one throws. *)
Fixpoint invoke_all (calls : list (EVMWalletClient W * Invocation))
    (h : Heap W) : Heap W :=
  match calls with
  | [] => h
  | (walletClient, i) :: rest => invoke_all rest (invoke walletClient i h).2
  end.
End Invoke.

(** What the first failing call of a trace threw. *)
Definition first_failure (t : Trace) : option Thrown :=
  match omap snd t with
  | e :: _ => Some e
  | [] => None
  end.

(** ** A concrete environment, for running the methods on examples *)

Module Sample.
(** [toLowerCase] on strings of ASCII characters. *)
Definition lower_ascii (c : Ascii.ascii) : Ascii.ascii :=
  let n := Ascii.N_of_ascii c in
  if decide (65 ≤ n ≤ 90)%N then Ascii.ascii_of_N (n + 32) else c.

Fixpoint lower (s : string) : string :=
  match s with
  | EmptyString => EmptyString
  | String c s' => String (lower_ascii c) (lower s')
  end.

(** [Number()] where it is exact: a bigint of small magnitude becomes the
    number of the same value, a number stays.  The other values are left
    alone, which is not what JavaScript does; the examples do not convert
    them. *)
Definition number (v : JsValue) : JsValue :=
  match v with
  | VBigInt z => VNumber z
  | _ => v
  end.

Definition env : JsEnv :=
  {| toLowerCase := lower; Number := number; ERC1155_ABI := VArray [] |}.

Definition GOLD : Token :=
  {| symbol := "GOLD"; name := VString "Gold"; decimals := VNumber 0;
     uri := VString "ipfs://gold"; totalSupply := VNumber 1000;
     id := VNumber 1;
     chains := {[ 1%N := {| contractAddress := "0xAAA" |} ]} |}.

Definition gold : Token :=
  {| symbol := "gold"; name := VString "Fool's gold"; decimals := VNumber 2;
     uri := VString "ipfs://fool"; totalSupply := VNumber 5;
     id := VNumber 2;
     chains := {[ 1%N := {| contractAddress := "0xBBB" |} ]} |}.

(** A token with the symbol [gold], registered on chain 137 only. *)
Definition gold_on_137 : Token :=
  {| symbol := "gold"; name := VString "Gold (bridged)"; decimals := VNumber 0;
     uri := VString "ipfs://bridged"; totalSupply := VNumber 7;
     id := VNumber 4;
     chains := {[ 137%N := {| contractAddress := "0xDDD" |} ]} |}.

Definition SILVER : Token :=
  {| symbol := "SILVER"; name := VString "Silver"; decimals := VNumber 0;
     uri := VString "ipfs://silver"; totalSupply := VNumber 50;
     id := VNumber 3;
     chains := {[ 137%N := {| contractAddress := "0xCCC" |} ]} |}.

(** A wallet client without state, on chain 1; it resolves every
    identifier to itself, reads [answer] and sends with hash [0xhash]. *)
Definition walletClient (answer : JsValue) : EVMWalletClient unit :=
  {| getChain := λ w, (inr {| chain_id := 1 |}, w);
     resolveAddress := λ a w, (inr a, w);
     read := λ _ w, (inr {| value := answer |}, w);
     sendTransaction := λ _ w, (inr {| hash := "0xhash" |}, w);
     resolveAddress_throws := λ _ _, false;
     rejects_first := λ _ _, 0 |}.

(** The same, on chain 137. *)
Definition polygonClient : EVMWalletClient unit :=
  {| getChain := λ w, (inr {| chain_id := 137 |}, w);
     resolveAddress := λ a w, (inr a, w);
     read := λ _ w, (inr {| value := VUndefined |}, w);
     sendTransaction := λ _ w, (inr {| hash := "0xhash" |}, w);
     resolveAddress_throws := λ _ _, false;
     rejects_first := λ _ _, 0 |}.

(** The same, but [getChain] throws. *)
Definition chainlessClient : EVMWalletClient unit :=
  {| getChain := λ w, (inl (ErrorObject "Error" "chain unavailable"), w);
     resolveAddress := λ a w, (inr a, w);
     read := λ _ w, (inr {| value := VUndefined |}, w);
     sendTransaction := λ _ w, (inr {| hash := "0xhash" |}, w);
     resolveAddress_throws := λ _ _, false;
     rejects_first := λ _ _, 0 |}.

(** The same, but [sendTransaction] throws. *)
Definition rejectingClient : EVMWalletClient unit :=
  {| getChain := λ w, (inr {| chain_id := 1 |}, w);
     resolveAddress := λ a w, (inr a, w);
     read := λ _ w, (inr {| value := VUndefined |}, w);
     sendTransaction := λ _ w, (inl (ErrorObject "Error" "insufficient funds"), w);
     resolveAddress_throws := λ _ _, false;
     rejects_first := λ _ _, 0 |}.

(** A wallet client whose [resolveAddress] returns promises that all
    reject, the second one started being the first to do so. *)
Definition racingClient : EVMWalletClient unit :=
  {| getChain := λ w, (inr {| chain_id := 1 |}, w);
     resolveAddress := λ a w, (inl (ErrorObject "Error" (a +:+ " failed")), w);
     read := λ _ w, (inr {| value := VArray [] |}, w);
     sendTransaction := λ _ w, (inr {| hash := "0xhash" |}, w);
     resolveAddress_throws := λ _ _, false;
     rejects_first := λ _ _, 1 |}.


(** A wallet client whose [sendTransaction] throws a [Symbol]. *)
Definition symbolClient : EVMWalletClient unit :=
  {| getChain := λ w, (inr {| chain_id := 1 |}, w);
     resolveAddress := λ a w, (inr a, w);
     read := λ _ w, (inr {| value := VUndefined |}, w);
     sendTransaction := λ _ w,
       (inl (Unconvertible
               (ErrorObject "TypeError"
                  "Cannot convert a Symbol value to a string")), w);
     resolveAddress_throws := λ _ _, false;
     rejects_first := λ _ _, 0 |}.

Definition heap (tokens : list Token) : Heap unit :=
  {| this := constructor (Some tokens); client := (); trace := [] |}.
End Sample.

(** ** Auxiliary notions used in the statements *)

(** The wallet client's outcomes for [resolveAddress] on each owner in turn,
    and its state afterwards. *)
Fixpoint resolve_each {W} (walletClient : EVMWalletClient W)
    (owners : list string) (w : W) : list (Outcome string) * W :=
  match owners with
  | [] => ([], w)
  | owner :: rest =>
      let '(r, w1) := resolveAddress walletClient owner w in
      let '(rs, w2) := resolve_each walletClient rest w1 in
      (r :: rs, w2)
  end.

(** What [balanceOfBatch] gets from starting [resolveAddress] on each owner
    in turn: the promises' outcomes, or what the first call that throws
    before returning a promise threw (the owners after it are not reached);
    with the wallet client's state afterwards and the trace entries of the
    calls made. *)
Fixpoint start_each {W} (walletClient : EVMWalletClient W)
    (owners : list string) (w : W)
  : Outcome (list (Outcome string)) * W * Trace :=
  match owners with
  | [] => (inr [], w, [])
  | owner :: rest =>
      let '(r, w1) := resolveAddress walletClient owner w in
      let entry := (CallResolveAddress owner, failure r) in
      let go_on :=
        let '(rs, w2, entries) := start_each walletClient rest w1 in
        (match rs with
         | inl e => inl e
         | inr promises => inr (r :: promises)
         end, w2, entry :: entries) in
      match r with
      | inl e =>
          if resolveAddress_throws walletClient owner w
          then (inl e, w1, [entry])
          else go_on
      | inr _ => go_on
      end
  end.

(** What a [catch] block of the service throws for the value it caught: the
    new [Error], or what the conversion of the caught value to a string
    threw. *)
Definition rethrown (text : string) (caught : Thrown) : Thrown :=
  match template text caught with
  | inl raised => raised
  | inr message => Error message
  end.
Arguments rethrown : simpl never.

(** The trace entries of those calls. *)
Definition resolve_entries (owners : list string)
    (outcomes : list (Outcome string)) : Trace :=
  zip_with (λ owner r, (CallResolveAddress owner, failure r)) owners outcomes.

(** The [sendTransaction] calls of a trace. *)
Definition sent (t : Trace) : list TxCall.t :=
  omap (λ entry, match entry.1 with
                 | CallSendTransaction c => Some c
                 | _ => None
                 end) t.

(** The [read] calls of a trace. *)
Definition reads (t : Trace) : list ReadCall.t :=
  omap (λ entry, match entry.1 with
                 | CallRead c => Some c
                 | _ => None
                 end) t.

(** The object literal that [getTokenInfoBySymbol] builds from a descriptor
    and a contract address. *)
Definition info_of (token : Token) (contractAddress : string) : TokenInfo.t :=
  {| TokenInfo.symbol := symbol token;
     TokenInfo.contractAddress := contractAddress;
     TokenInfo.id := id token;
     TokenInfo.decimals := decimals token;
     TokenInfo.name := name token;
     TokenInfo.uri := uri token;
     TokenInfo.totalSupply := totalSupply token |}.

Section Lookup_notions.
Context `{JsEnv}.

(** The query [s] is the symbol of [token] or its lowercase form. *)
Definition matches (s : string) (token : Token) : Prop :=
  s = symbol token ∨ s = toLowerCase (symbol token).

(** [token] is the first descriptor of the list that [s] matches. *)
Definition first_match (s : string) (tokens : list Token) (token : Token)
  : Prop :=
  ∃ before after,
    tokens = before ++ token :: after
    ∧ matches s token
    ∧ Forall (λ t, ¬ matches s t) before.

(** What the lookup does with the descriptor it selected, on a given chain:
    the second [throw], or the object literal. *)
Definition outcome_on_chain (s : string) (token : Token) (chain : Chain)
  : Outcome TokenInfo.t :=
  match contractAddress_on token chain with
  | None => inl (Error (not_found_on_chain_message s chain))
  | Some a =>
      if decide (a = "")
      then inl (Error (not_found_on_chain_message s chain))
      else inr (info_of token a)
  end.
End Lookup_notions.

(** Whether the last character of a string is [c]. *)
Fixpoint ends_in (c : Ascii.ascii) (s : string) : bool :=
  match s with
  | EmptyString => false
  | String a EmptyString => bool_decide (a = c)
  | String _ s' => ends_in c s'
  end.

(** * Properties *)

(** ** Strings *)

Lemma string_app_nil_r (s : string) : s +:+ "" = s.
Proof.
  induction s as [|a s IH]; [reflexivity|].
  change (String a (s +:+ "") = String a s). by rewrite IH.
Qed.

Lemma string_app_assoc (s t u : string) : (s +:+ t) +:+ u = s +:+ t +:+ u.
Proof.
  induction s as [|a s IH]; [reflexivity|].
  change (String a ((s +:+ t) +:+ u) = String a (s +:+ t +:+ u)). by rewrite IH.
Qed.


Lemma contains_refl (s : string) : contains s s.
Proof. exists "", "". by rewrite string_app_nil_r. Qed.

Lemma contains_empty (t : string) : contains t "".
Proof. exists t, "". by rewrite string_app_nil_r. Qed.

Lemma contains_app_l (p t s : string) : contains t s → contains (p +:+ t) s.
Proof.
  intros (before & after & ->). exists (p +:+ before), after.
  by rewrite string_app_assoc.
Qed.

Lemma contains_app_r (p t s : string) : contains t s → contains (t +:+ p) s.
Proof.
  intros (before & after & ->). exists before, (after +:+ p).
  by rewrite !string_app_assoc.
Qed.

(** [String(error)] shows the message of an [Error]. *)
Lemma toString_contains_message (e : Thrown) (m : string) :
  message_of e = Some m → contains (toString e) m.
Proof.
  destruct e as [n m'|r|raised]; [|done..]. intros [= ->]. simpl.
  destruct (decide (n = "")); [apply contains_refl|].
  destruct (decide (m = "")) as [->|]; [apply contains_empty|].
  do 2 apply contains_app_l. apply contains_refl.
Qed.



(** ** The monad *)

Lemma settle_all_length {A} (promises : list (Outcome A)) (l : list A) :
  settle_all promises = inr l → length l = length promises.
Proof.
  revert l. induction promises as [|[e|a] ps IH]; intros l; simpl.
  - by intros [= <-].
  - done.
  - destruct (settle_all ps) as [e|l']; [done|]. intros [= <-]. simpl.
    by rewrite (IH l').
Qed.

Lemma settle_all_lookup {A} (promises : list (Outcome A)) (l : list A) (i : nat) :
  settle_all promises = inr l → promises !! i = inr <$> (l !! i).
Proof.
  revert l i. induction promises as [|[e|a] ps IH]; intros l i; simpl.
  - by intros [= <-].
  - done.
  - destruct (settle_all ps) as [e|l']; [done|]. intros [= <-].
    destruct i as [|i]; [done|]. simpl. by apply IH.
Qed.

Lemma settle_all_rejections {A} (promises : list (Outcome A)) :
  match settle_all promises with
  | inl rejected => rejections promises = rejected.1 :: rejected.2
  | inr _ => rejections promises = []
  end.
Proof.
  induction promises as [|[e|a] ps IH]; simpl; [done..|].
  by destruct (settle_all ps).
Qed.

Lemma first_in_time_elem (i : nat) (rejected : Thrown * list Thrown) :
  first_in_time i rejected ∈ rejected.1 :: rejected.2.
Proof.
  unfold first_in_time.
  destruct ((rejected.1 :: rejected.2) !! i) as [e|] eqn:He; simpl.
  - by eapply list_elem_of_lookup_2.
  - apply list_elem_of_here.
Qed.

Lemma first_failure_app (t u : Trace) :
  first_failure (t ++ u)
  = match first_failure t with
    | Some e => Some e
    | None => first_failure u
    end.
Proof.
  unfold first_failure. rewrite omap_app.
  by destruct (omap snd t).
Qed.

Lemma first_failure_None (t : Trace) :
  first_failure t = None ↔ Forall (λ entry, entry.2 = None) t.
Proof.
  unfold first_failure. induction t as [|[c [e|]] t IH]; simpl.
  - done.
  - split; [done|]. by inversion 1.
  - rewrite IH. split; [by constructor|]. by inversion 1.
Qed.

Lemma first_failure_elem (t : Trace) (e : Thrown) :
  first_failure t = Some e → ∃ c, (c, Some e) ∈ t.
Proof.
  unfold first_failure. induction t as [|[c [e'|]] t IH]; simpl; [done|..].
  - intros [= ->]. exists c. apply list_elem_of_here.
  - intros [c' Hc']%IH. exists c'. by apply list_elem_of_further.
Qed.

Lemma resolve_each_length {W} (walletClient : EVMWalletClient W)
    (owners : list string) (w : W) :
  length (resolve_each walletClient owners w).1 = length owners.
Proof.
  revert w. induction owners as [|o os IH]; intros w; simpl; [done|].
  destruct (resolveAddress walletClient o w) as [r w1].
  specialize (IH w1). destruct (resolve_each walletClient os w1) as [rs w2].
  simpl in *. by rewrite IH.
Qed.

Lemma failures_resolve_entries (owners : list string)
    (outcomes : list (Outcome string)) :
  length outcomes = length owners →
  omap snd (resolve_entries owners outcomes) = rejections outcomes.
Proof.
  revert outcomes. induction owners as [|o os IH]; intros [|[e|a] rs] Hlen;
    simplify_eq/=; try done.
  - f_equal. by apply IH.
  - by apply IH.
Qed.

Lemma first_failure_resolve_entries (owners : list string)
    (outcomes : list (Outcome string)) :
  length outcomes = length owners →
  first_failure (resolve_entries owners outcomes) = head (rejections outcomes).
Proof.
  intros Hlen. unfold first_failure. rewrite failures_resolve_entries by done.
  by destruct (rejections outcomes).
Qed.

Lemma rejection_in_resolve_entries (owners : list string)
    (outcomes : list (Outcome string)) (e : Thrown) :
  length outcomes = length owners →
  e ∈ rejections outcomes → ∃ c, (c, Some e) ∈ resolve_entries owners outcomes.
Proof.
  intros Hlen. rewrite <- (failures_resolve_entries owners) by done.
  intros ([c o] & Hin & Ho)%list_elem_of_omap. simpl in Ho. subst o.
  by exists c.
Qed.

Lemma sent_resolve_entries (owners : list string)
    (outcomes : list (Outcome string)) :
  sent (resolve_entries owners outcomes) = [].
Proof.
  revert outcomes. induction owners as [|o os IH]; intros [|r rs]; try done.
  apply IH.
Qed.

Lemma reads_resolve_entries (owners : list string)
    (outcomes : list (Outcome string)) :
  reads (resolve_entries owners outcomes) = [].
Proof.
  revert outcomes. induction owners as [|o os IH]; intros [|r rs]; try done.
  apply IH.
Qed.

Lemma resolve_entries_calls_of (owners : list string)
    (outcomes : list (Outcome string)) :
  length outcomes = length owners →
  (resolve_entries owners outcomes).*1 = CallResolveAddress <$> owners.
Proof.
  revert outcomes. induction owners as [|o os IH]; intros [|r rs] Hlen;
    simplify_eq/=; [done|].
  f_equal. by apply IH.
Qed.

(** *** Starting the resolutions of [balanceOfBatch] *)

Section Starting.
Context {W : Type}.
Implicit Types (walletClient : EVMWalletClient W).

(** When every call returned a promise, all the owners were called. *)
Lemma start_each_promises walletClient (owners : list string) (w w1 : W)
    (promises : list (Outcome string)) (entries : Trace) :
  start_each walletClient owners w = (inr promises, w1, entries) →
  resolve_each walletClient owners w = (promises, w1)
  ∧ entries = resolve_entries owners promises.
Proof.
  revert w promises entries.
  induction owners as [|o os IH]; intros w promises entries; simpl.
  { by intros [= <- <- <-]. }
  destruct (resolveAddress walletClient o w) as [r w'].
  destruct (start_each walletClient os w') as [[rs w2] es] eqn:Hs.
  intros Heq.
  assert (∃ ps, rs = inr ps ∧ promises = r :: ps ∧ w1 = w2
                ∧ entries = (CallResolveAddress o, failure r) :: es)
    as (ps & -> & -> & -> & ->).
  { destruct r as [e|a]; [destruct (resolveAddress_throws walletClient o w)|];
      try done; destruct rs as [e'|ps]; try done;
      injection Heq as <- <- <-; by exists ps. }
  destruct (IH _ _ _ Hs) as [-> ->]. done.
Qed.

(** When a call threw before returning a promise, it is the last call made,
    and what it threw is what is thrown. *)
Lemma start_each_throws walletClient (owners : list string) (w w1 : W)
    (e : Thrown) (entries : Trace) :
  start_each walletClient owners w = (inl e, w1, entries) →
  ∃ before owner after before_entries,
    owners = before ++ owner :: after
    ∧ entries = before_entries ++ [(CallResolveAddress owner, Some e)]
    ∧ before_entries.*1 = CallResolveAddress <$> before.
Proof.
  revert w entries. induction owners as [|o os IH]; intros w entries; simpl;
    [done|].
  destruct (resolveAddress walletClient o w) as [r w'].
  destruct (start_each walletClient os w') as [[rs w2] es] eqn:Hs.
  intros Heq.
  assert ((∃ e', r = inl e' ∧ e = e'
                 ∧ entries = [(CallResolveAddress o, Some e)])
          ∨ (rs = inl e ∧ w2 = w1
             ∧ entries = (CallResolveAddress o, failure r) :: es))
    as [(e' & -> & _ & ->)|(-> & -> & ->)].
  { destruct r as [e'|a]; [destruct (resolveAddress_throws walletClient o w)|].
    - injection Heq as <- <- <-. left. by exists e'.
    - right. destruct rs; [|done]. by injection Heq as <- <- <-.
    - right. destruct rs; [|done]. by injection Heq as <- <- <-. }
  - by exists [], o, os, [].
  - destruct (IH _ _ Hs) as (before & owner & after & bes & -> & -> & Hbes).
    exists (o :: before), owner, after, ((CallResolveAddress o, failure r) :: bes).
    split_and!; [done..|]. by rewrite fmap_cons, Hbes.
Qed.

(** All the owners are called when no call fails, and when the wallet
    client never throws before returning a promise. *)
Lemma start_each_all walletClient (owners : list string) (w : W) :
  ((∃ l, settle_all (resolve_each walletClient owners w).1 = inr l)
   ∨ ∀ owner w', resolveAddress_throws walletClient owner w' = false) →
  start_each walletClient owners w
  = (inr (resolve_each walletClient owners w).1,
     (resolve_each walletClient owners w).2,
     resolve_entries owners (resolve_each walletClient owners w).1).
Proof.
  revert w. induction owners as [|o os IH]; intros w; simpl; [done|].
  destruct (resolveAddress walletClient o w) as [r w'] eqn:Hr. intros Hall.
  assert ((∃ l, settle_all (resolve_each walletClient os w').1 = inr l)
          ∨ ∀ owner w', resolveAddress_throws walletClient owner w' = false)
    as Hrest.
  { destruct Hall as [[l Hall]|Hall]; [left|by right].
    destruct (resolve_each walletClient os w') as [rs w2]. simpl in *.
    destruct r; [done|]. destruct (settle_all rs) as [|l']; [done|].
    by exists l'. }
  rewrite (IH _ Hrest).
  destruct (resolve_each walletClient os w') as [rs w2]. simpl.
  destruct r as [e|a]; [|done].
  destruct Hall as [[l Hall]|Hall]; [done|]. by rewrite Hall.
Qed.
End Starting.

Section Methods.
Context `{JsEnv} {W : Type}.
Implicit Types (walletClient : EVMWalletClient W) (h : Heap W).

(** The resolutions that [balanceOfBatch] starts. *)
Lemma mapM_start_resolveAddress walletClient (owners : list string) h :
  mapM (start_resolveAddress walletClient) owners h
  = let '(started, w, entries) := start_each walletClient owners (client h) in
    (started, {| this := this h; client := w; trace := trace h ++ entries |}).
Proof.
  revert h. induction owners as [|o os IH]; intros h; simpl.
  - unfold ret. destruct h. simpl. by rewrite app_nil_r.
  - unfold bind at 1. unfold start_resolveAddress at 1.
    unfold promise, await_resolveAddress, call.
    destruct (resolveAddress walletClient o (client h)) as [r w1]. simpl.
    destruct r as [e|a]; simpl;
      [destruct (resolveAddress_throws walletClient o (client h)); [done|]|];
      unfold bind; rewrite IH; simpl;
      destruct (start_each walletClient os w1) as [[[e'|ps] w2] es]; simpl;
      unfold ret; by rewrite <- app_assoc.
Qed.
End Methods.

(** ** Running a method: case analysis on what the wallet client answers *)

(** A [try] whose [catch] block throws [Error(`${text}${error}`)]. *)
Lemma tryCatch_rethrow {W A} (body : M W A) (text : string) (h : Heap W) :
  tryCatch body
    (λ error, message <- of_outcome (template text error) ;;
              throw (Error message)) h
  = match body h with
    | (inr a, h') => (inr a, h')
    | (inl e, h') => (inl (rethrown text e), h')
    end.
Proof.
  unfold tryCatch, bind, of_outcome, throw, rethrown.
  destruct (body h) as [[e|a] h']; [|done]. by destruct (template text e).
Qed.



Lemma String_of_Error (name message : string) :
  String_of (ErrorObject name message) = inr (toString (ErrorObject name message)).
Proof. done. Qed.


Ltac unfold_monad :=
  unfold thrown_by; rewrite ?tryCatch_rethrow;
  unfold tryCatch, bind, ret, throw, of_outcome, this_tokens, Promise_all,
    await_getChain, await_resolveAddress, await_read, await_sendTransaction,
    call, thrown_by; simpl.

Ltac answer :=
  match goal with
  | |- context [getChain ?wc ?w] =>
      destruct (getChain wc w) as [[?|?] ?] eqn:?
  | |- context [resolveAddress ?wc ?a ?w] =>
      destruct (resolveAddress wc a w) as [[?|?] ?] eqn:?
  | |- context [read ?wc ?c ?w] =>
      destruct (read wc c w) as [[?|?] ?] eqn:?
  | |- context [sendTransaction ?wc ?c ?w] =>
      destruct (sendTransaction wc c w) as [[?|?] ?] eqn:?
  end; simplify_eq/=.

Ltac run := unfold_monad; repeat answer.

Ltac give_trace := eexists; split; [by rewrite <- ?app_assoc|].

Lemma array_map_throws (f : JsValue → JsValue) (v : JsValue) (e : Thrown) :
  array_map f v = inl e → ∃ text, e = ErrorObject "TypeError" text.
Proof. destruct v; simpl; intros [= <-]; by eexists. Qed.

Lemma array_map_returns (f : JsValue → JsValue) (v : JsValue)
    (l : list JsValue) :
  array_map f v = inr l ↔ ∃ raw, v = VArray raw ∧ l = f <$> raw.
Proof.
  split.
  - destruct v; simpl; intros [= <-]. by eexists.
  - by intros (raw & -> & ->).
Qed.

Section Runs_of_methods.
Context `{JsEnv} {W : Type}.
Implicit Types (walletClient : EVMWalletClient W) (h : Heap W).

(** [balanceOfBatch], step by step. *)
Lemma balanceOfBatch_run walletClient (p : BalanceOfBatchParameters.t) h :
  balanceOfBatch walletClient p h
  = let text := "Failed to fetch batch balances: " in
    let owners := BalanceOfBatchParameters.owners p in
    let '(started, w1, entries) := start_each walletClient owners (client h) in
    let t1 := trace h ++ entries in
    let h1 := {| this := this h; client := w1; trace := t1 |} in
    match started with
    | inl e => (inl (rethrown text e), h1)
    | inr promises =>
        match settle_all promises with
        | inl rejected =>
            (inl (rethrown text
                    (first_in_time
                       (rejects_first walletClient
                          (rejected.1 :: rejected.2) w1) rejected)), h1)
        | inr resolvedOwners =>
            let c :=
              {| ReadCall.address := BalanceOfBatchParameters.tokenAddress p;
                 ReadCall.abi := ERC1155_ABI;
                 ReadCall.functionName := "balanceOfBatch";
                 ReadCall.args := [VArray (VString <$> resolvedOwners);
                                   VArray (BalanceOfBatchParameters.ids p)] |} in
            let '(r, w2) := read walletClient c w1 in
            let h2 := {| this := this h; client := w2;
                         trace := t1 ++ [(CallRead c, failure r)] |} in
            match r with
            | inl e => (inl (rethrown text e), h2)
            | inr rawBalances =>
                match array_map Number (value rawBalances) with
                | inl e => (inl (rethrown text e), h2)
                | inr balances => (inr balances, h2)
                end
            end
        end
    end.
Proof.
  unfold balanceOfBatch. rewrite tryCatch_rethrow. unfold bind at 1.
  rewrite mapM_start_resolveAddress. cbv zeta.
  destruct (start_each _ _ _) as [[[e|promises] w1] entries]; [done|].
  unfold_monad.
  destruct (settle_all promises) as [rejected|resolvedOwners]; [done|].
  simpl. repeat answer; [done|]. by destruct (array_map _ _).
Qed.

(** The same when every owner gets called: when no promise is rejected, or
    with a wallet client that never throws before returning a promise. *)
Lemma balanceOfBatch_run_all walletClient (p : BalanceOfBatchParameters.t) h :
  let owners := BalanceOfBatchParameters.owners p in
  let answers := resolve_each walletClient owners (client h) in
  ((∃ l, settle_all answers.1 = inr l)
   ∨ ∀ owner w, resolveAddress_throws walletClient owner w = false) →
  balanceOfBatch walletClient p h
  = let text := "Failed to fetch batch balances: " in
    let t1 := trace h ++ resolve_entries owners answers.1 in
    let h1 := {| this := this h; client := answers.2; trace := t1 |} in
    match settle_all answers.1 with
    | inl rejected =>
        (inl (rethrown text
                (first_in_time
                   (rejects_first walletClient
                      (rejected.1 :: rejected.2) answers.2) rejected)), h1)
    | inr resolvedOwners =>
        let c :=
          {| ReadCall.address := BalanceOfBatchParameters.tokenAddress p;
             ReadCall.abi := ERC1155_ABI;
             ReadCall.functionName := "balanceOfBatch";
             ReadCall.args := [VArray (VString <$> resolvedOwners);
                               VArray (BalanceOfBatchParameters.ids p)] |} in
        let '(r, w2) := read walletClient c answers.2 in
        let h2 := {| this := this h; client := w2;
                     trace := t1 ++ [(CallRead c, failure r)] |} in
        match r with
        | inl e => (inl (rethrown text e), h2)
        | inr rawBalances =>
            match array_map Number (value rawBalances) with
            | inl e => (inl (rethrown text e), h2)
            | inr balances => (inr balances, h2)
            end
        end
    end.
Proof.
  intros owners answers Hall. rewrite balanceOfBatch_run. simpl.
  fold owners. by rewrite (start_each_all _ _ _ Hall).
Qed.

(** The calls [balanceOfBatch] adds to the trace, before the read if any:
    [resolveAddress] on owners of the list, in the order of the list. *)
Lemma start_each_calls walletClient (owners : list string) (w : W) :
  ∃ called : list string,
    (start_each walletClient owners w).2.*1 = CallResolveAddress <$> called
    ∧ called `prefix_of` owners.
Proof.
  destruct (start_each walletClient owners w) as [[[e|promises] w1] entries]
    eqn:Hstart; simpl.
  - apply start_each_throws in Hstart
      as (before & owner & after & bes & -> & -> & Hbes).
    exists (before ++ [owner]). split.
    + by rewrite !fmap_app, Hbes.
    + exists after. by rewrite <- app_assoc.
  - apply start_each_promises in Hstart as [Hresolve ->].
    exists owners. split; [|done]. apply resolve_entries_calls_of.
    pose proof (resolve_each_length walletClient owners w) as Hlen.
    by rewrite Hresolve in Hlen.
Qed.

(** No method assigns to [this.tokens]. *)
Lemma invoke_this walletClient (i : Invocation) h :
  this (invoke walletClient i h).2 = this h.
Proof.
  destruct i as [p|p|p|p|p|p|p]; simpl.
  - unfold getTokenInfoBySymbol. unfold_monad.
    destruct (find _ _); [|done]. answer; [done|]. by destruct (falsy _).
  - unfold balanceOf. by run.
  - unfold thrown_by. rewrite balanceOfBatch_run. simpl.
    destruct (start_each _ _ _) as [[[e|promises] w1] entries]; [done|].
    destruct (settle_all _); [done|].
    answer; [done|]. by destruct (array_map _ _).
  - unfold safeTransferFrom. by run.
  - unfold safeBatchTransferFrom. by run.
  - unfold setApprovalForAll. by run.
  - unfold isApprovedForAll. by run.
Qed.
End Runs_of_methods.

Section Claims_on_effects.
Context `{JsEnv} {W : Type}.
Implicit Types (walletClient : EVMWalletClient W) (h : Heap W).



Ltac in_trace :=
  simpl;
  repeat first [apply list_elem_of_here | apply list_elem_of_further].

(** How a call of one of the six methods with a [catch] block ends: with no
    failed call on the wallet client (and then it returns, or it is
    [balanceOfBatch] rethrowing the [TypeError] of [map]), or rethrowing
    what a failed call threw. *)
Lemma invoke_catch_cases walletClient (i : Invocation) (prefix : string) h :
  catch_prefix i = Some prefix →
  ∃ new, trace (invoke walletClient i h).2 = trace h ++ new ∧
    ((first_failure new = None
      ∧ ((invoke walletClient i h).1 = None
         ∨ ((∃ p, i = BalanceOfBatch p)
            ∧ ∃ text, (invoke walletClient i h).1
                      = Some (rethrown prefix (ErrorObject "TypeError" text)))))
     ∨ (∃ c cause,
          (c, Some cause) ∈ new
          ∧ ((∀ p, i ≠ BalanceOfBatch p) → first_failure new = Some cause)
          ∧ (invoke walletClient i h).1 = Some (rethrown prefix cause))).
Proof.
  intros Hprefix. destruct i as [p|p|p|p|p|p|p]; simplify_eq/=.
  - unfold balanceOf. run; give_trace;
      first [solve [left; split; [done|by left]]
            |solve [right; do 2 eexists; split_and!; [in_trace|done..]]].
  - unfold thrown_by. rewrite balanceOfBatch_run. simpl.
    destruct (start_each _ _ _) as [[[e|promises] w1] entries] eqn:Hstart.
    { apply start_each_throws in Hstart
        as (before & owner & after & bes & _ & -> & _).
      give_trace. right. do 2 eexists.
      split_and!; [apply elem_of_app; right; apply list_elem_of_here| |done].
      intros Hseq. by destruct (Hseq p). }
    apply start_each_promises in Hstart as [Hresolve ->].
    pose proof (resolve_each_length walletClient
                  (BalanceOfBatchParameters.owners p) (client h)) as Hlen.
    rewrite Hresolve in Hlen. simpl in Hlen.
    pose proof (first_failure_resolve_entries _ _ Hlen) as Hfirst.
    pose proof (settle_all_rejections promises) as Hrejected.
    destruct (settle_all promises) as [rejected|resolvedOwners]; simpl.
    { give_trace. right.
      destruct (rejection_in_resolve_entries
                  (BalanceOfBatchParameters.owners p) promises
                  (first_in_time
                     (rejects_first walletClient (rejected.1 :: rejected.2) w1)
                     rejected) Hlen) as [c Hc].
      { rewrite Hrejected. apply first_in_time_elem. }
      exists c. eexists. split_and!; [done| |done].
      intros Hseq. by destruct (Hseq p). }
    rewrite Hrejected in Hfirst.
    answer.
    { give_trace. right. do 2 eexists.
      split_and!; [apply elem_of_app; right; apply list_elem_of_here| |done].
      intros Hseq. by destruct (Hseq p). }
    destruct (array_map _ _) as [e|balances] eqn:Hmap; simpl; give_trace; left;
      (split; [by rewrite first_failure_app, Hfirst|]).
    + right. apply array_map_throws in Hmap as [text ->].
      split; [by exists p|by exists text].
    + by left.
  - unfold safeTransferFrom. run; give_trace;
      first [solve [left; split; [done|by left]]
            |solve [right; do 2 eexists; split_and!; [in_trace|done..]]].
  - unfold safeBatchTransferFrom. run; give_trace;
      first [solve [left; split; [done|by left]]
            |solve [right; do 2 eexists; split_and!; [in_trace|done..]]].
  - unfold setApprovalForAll. run; give_trace;
      first [solve [left; split; [done|by left]]
            |solve [right; do 2 eexists; split_and!; [in_trace|done..]]].
  - unfold isApprovedForAll. run; give_trace;
      first [solve [left; split; [done|by left]]
            |solve [right; do 2 eexists; split_and!; [in_trace|done..]]].
Qed.


(** C9: the list of token descriptors is the one given to the constructor
    (the empty list when none is given) and no method changes it: after any sequence of method calls, with any wallet
    clients and whether the calls return or throw, the service holds the
    list it held before. *)
Theorem registry_never_mutated
    (calls : list (EVMWalletClient W * Invocation)) h :
  (∀ l, tokens (constructor (Some l)) = l)
  ∧ tokens (constructor None) = []
  ∧ tokens (this (invoke_all calls h)) = tokens (this h)
  ∧ ∀ walletClient i, tokens (this (invoke walletClient i h).2) = tokens (this h).
Proof.
  split_and!; [done..| |intros; by rewrite invoke_this].
  revert h. induction calls as [|[walletClient i] rest IH]; intros h; [done|].
  simpl. by rewrite IH, invoke_this.
Qed.
End Claims_on_effects.

Section Claims_on_calls.
Context `{JsEnv} {W : Type}.
Implicit Types (walletClient : EVMWalletClient W) (h : Heap W).

(** When [sendTransaction] throws inside [safeTransferFrom], the caller gets
    what the [catch] block rethrows: for an [Error], the new [Error] whose
    message contains the original message. *)
Corollary safeTransferFrom_sendTransaction_throws walletClient
    (p : SafeTransferFromParameters.t) h (from to : string) (w1 w2 w3 : W)
    (cause : Thrown) :
  resolveAddress walletClient (SafeTransferFromParameters.from p) (client h)
    = (inr from, w1) →
  resolveAddress walletClient (SafeTransferFromParameters.to p) w1
    = (inr to, w2) →
  sendTransaction walletClient
    {| TxCall.to := SafeTransferFromParameters.tokenAddress p;
       TxCall.abi := ERC1155_ABI;
       TxCall.functionName := "safeTransferFrom";
       TxCall.args :=
         [VString from; VString to; SafeTransferFromParameters.id p;
          SafeTransferFromParameters.value p;
          VString (default "0x" (SafeTransferFromParameters.data p))] |} w2
    = (inl cause, w3) →
  (safeTransferFrom walletClient p h).1
    = inl (rethrown "Failed to transfer: " cause)
  ∧ ∀ name message, cause = ErrorObject name message →
      rethrown "Failed to transfer: " cause
      = Error ("Failed to transfer: " +:+ toString cause)
      ∧ contains ("Failed to transfer: " +:+ toString cause) message.
Proof.
  intros Hfrom Hto Hsend. split.
  - unfold safeTransferFrom. unfold_monad. rewrite Hfrom. simpl.
    rewrite Hto. simpl. by rewrite Hsend.
  - intros name message ->. split; [done|].
    by apply contains_app_l, toString_contains_message.
Qed.

(** What [isApprovedForAll] returns when nothing fails: the object that
    [read] resolved to, not its [value] property. *)
Lemma isApprovedForAll_returns walletClient (p : IsApprovedForAllParameters.t)
    h (owner operator : string) (w1 w2 w3 : W) (approved : ReadResult) :
  resolveAddress walletClient (IsApprovedForAllParameters.owner p) (client h)
    = (inr owner, w1) →
  resolveAddress walletClient (IsApprovedForAllParameters.operator p) w1
    = (inr operator, w2) →
  read walletClient
    {| ReadCall.address := IsApprovedForAllParameters.tokenAddress p;
       ReadCall.abi := ERC1155_ABI;
       ReadCall.functionName := "isApprovedForAll";
       ReadCall.args := [VString owner; VString operator] |} w2
    = (inr approved, w3) →
  (isApprovedForAll walletClient p h).1 = inr approved.
Proof.
  intros Howner Hoperator Hread.
  unfold isApprovedForAll. unfold_monad. rewrite Howner. simpl.
  rewrite Hoperator. simpl. by rewrite Hread.
Qed.

(** C7: [safeTransferFrom] and [safeBatchTransferFrom] issue their
    [sendTransaction] call, once both addresses are resolved, with the last
    argument [data] equal to the parameter [data] when it is supplied and to
    the string [0x] when it is omitted; when a resolution fails no
    transaction is sent. *)
Theorem transfer_data_defaults_to_0x walletClient h :
  (∀ p : SafeTransferFromParameters.t,
     ∃ new, trace (safeTransferFrom walletClient p h).2 = trace h ++ new ∧
       match resolveAddress walletClient
               (SafeTransferFromParameters.from p) (client h) with
       | (inr from, w1) =>
           match resolveAddress walletClient
                   (SafeTransferFromParameters.to p) w1 with
           | (inr to, _) =>
               sent new =
                 [ {| TxCall.to := SafeTransferFromParameters.tokenAddress p;
                      TxCall.abi := ERC1155_ABI;
                      TxCall.functionName := "safeTransferFrom";
                      TxCall.args :=
                        [VString from; VString to;
                         SafeTransferFromParameters.id p;
                         SafeTransferFromParameters.value p;
                         VString match SafeTransferFromParameters.data p with
                                 | Some data => data
                                 | None => "0x"
                                 end] |} ]
           | (inl _, _) => sent new = []
           end
       | (inl _, _) => sent new = []
       end)
  ∧ (∀ p : SafeBatchTransferFromParameters.t,
     ∃ new, trace (safeBatchTransferFrom walletClient p h).2 = trace h ++ new ∧
       match resolveAddress walletClient
               (SafeBatchTransferFromParameters.from p) (client h) with
       | (inr from, w1) =>
           match resolveAddress walletClient
                   (SafeBatchTransferFromParameters.to p) w1 with
           | (inr to, _) =>
               sent new =
                 [ {| TxCall.to := SafeBatchTransferFromParameters.tokenAddress p;
                      TxCall.abi := ERC1155_ABI;
                      TxCall.functionName := "safeBatchTransferFrom";
                      TxCall.args :=
                        [VString from; VString to;
                         VArray (SafeBatchTransferFromParameters.ids p);
                         VArray (SafeBatchTransferFromParameters.values p);
                         VString match SafeBatchTransferFromParameters.data p with
                                 | Some data => data
                                 | None => "0x"
                                 end] |} ]
           | (inl _, _) => sent new = []
           end
       | (inl _, _) => sent new = []
       end).
Proof.
  split; intros p.
  - unfold safeTransferFrom. unfold_monad.
    destruct (resolveAddress _ _ _) as [[e|from] w1]; simpl;
      [by exists [(CallResolveAddress (SafeTransferFromParameters.from p), Some e)]|].
    destruct (resolveAddress _ _ w1) as [[e|to] w2]; simpl;
      [eexists; split; [by rewrite <- ?app_assoc|done]|].
    destruct (SafeTransferFromParameters.data p); simpl;
      destruct (sendTransaction _ _ _) as [[e|tx] w3]; simpl;
      (eexists; split; [by rewrite <- ?app_assoc|done]).
  - unfold safeBatchTransferFrom. unfold_monad.
    destruct (resolveAddress _ _ _) as [[e|from] w1]; simpl;
      [by exists [(CallResolveAddress (SafeBatchTransferFromParameters.from p), Some e)]|].
    destruct (resolveAddress _ _ w1) as [[e|to] w2]; simpl;
      [eexists; split; [by rewrite <- ?app_assoc|done]|].
    destruct (SafeBatchTransferFromParameters.data p); simpl;
      destruct (sendTransaction _ _ _) as [[e|tx] w3]; simpl;
      (eexists; split; [by rewrite <- ?app_assoc|done]).
Qed.
End Claims_on_calls.

Section Claims_on_batches.
Context `{JsEnv} {W : Type}.
Implicit Types (walletClient : EVMWalletClient W) (h : Heap W).

(** C3 (as amended): when [balanceOfBatch] returns, every owner was resolved
    (as many resolved owners as owners, in their order), one [read] call was
    made with the resolved owners and the ids, that call returned an array
    [raw], and the result is [Number] applied to each element of [raw] in
    order: it has the length of [raw], and its i-th element is the
    conversion of the i-th element of [raw]; it has the length of the
    owners when [raw] has. *)
Theorem balanceOfBatch_converts_what_read_returns walletClient
    (p : BalanceOfBatchParameters.t) h (balances : list JsValue) :
  (balanceOfBatch walletClient p h).1 = inr balances →
  let owners := BalanceOfBatchParameters.owners p in
  let answers := resolve_each walletClient owners (client h) in
  ∃ (resolvedOwners : list string) (raw : list JsValue) (w2 : W) (new : Trace),
    let c := {| ReadCall.address := BalanceOfBatchParameters.tokenAddress p;
                ReadCall.abi := ERC1155_ABI;
                ReadCall.functionName := "balanceOfBatch";
                ReadCall.args := [VArray (VString <$> resolvedOwners);
                                  VArray (BalanceOfBatchParameters.ids p)] |} in
    settle_all answers.1 = inr resolvedOwners
    ∧ length resolvedOwners = length owners
    ∧ (∀ i, answers.1 !! i = inr <$> resolvedOwners !! i)
    ∧ trace (balanceOfBatch walletClient p h).2 = trace h ++ new
    ∧ reads new = [c]
    ∧ read walletClient c answers.2 = (inr {| value := VArray raw |}, w2)
    ∧ balances = Number <$> raw
    ∧ length balances = length raw
    ∧ (∀ i, balances !! i = Number <$> raw !! i)
    ∧ (length raw = length owners → length balances = length owners).
Proof.
  intros Hreturns owners answers. subst owners answers.
  rewrite balanceOfBatch_run in Hreturns |- *. simpl in *.
  destruct (start_each _ _ _) as [[[e|outcomes] w1] entries] eqn:Hstart;
    [done|].
  apply start_each_promises in Hstart as [Hresolve ->].
  pose proof (resolve_each_length walletClient
                (BalanceOfBatchParameters.owners p) (client h)) as Hlen.
  rewrite Hresolve in Hlen |- *. simpl in *.
  destruct (settle_all outcomes) as [e|resolvedOwners] eqn:Hall; [done|].
  destruct (read _ _ _) as [[e|[v]] w2] eqn:Hread; [done|]. simpl in *.
  destruct v as [| | | | |raw|]; simplify_eq/=.
  exists resolvedOwners, raw, w2. eexists.
  repeat split.
  - by rewrite (settle_all_length _ _ Hall).
  - intros i. by apply settle_all_lookup.
  - by rewrite <- app_assoc.
  - unfold reads. rewrite omap_app. fold (reads (resolve_entries
      (BalanceOfBatchParameters.owners p) outcomes)).
    by rewrite reads_resolve_entries.
  - done.
  - by rewrite length_fmap.
  - intros i. by rewrite list_lookup_fmap.
  - by rewrite length_fmap.
Qed.
End Claims_on_batches.

(** ** The lookup by symbol *)

Lemma find_app_first {A} (f : A → bool) (before after : list A) (x : A) :
  Forall (λ y, f y = false) before → f x = true →
  find f (before ++ x :: after) = Some x.
Proof.
  intros Hbefore Hx. induction Hbefore as [|y l Hy _ IH]; simpl.
  - by rewrite Hx.
  - by rewrite Hy.
Qed.

Lemma find_all_false {A} (f : A → bool) (l : list A) :
  Forall (λ y, f y = false) l → find f l = None.
Proof. induction 1 as [|y l Hy _ IH]; simpl; [done|]. by rewrite Hy. Qed.

Lemma find_split {A} (f : A → bool) (l : list A) (x : A) :
  find f l = Some x →
  ∃ before after,
    l = before ++ x :: after ∧ f x = true ∧ Forall (λ y, f y = false) before.
Proof.
  induction l as [|y l IH]; simpl; [done|].
  destruct (f y) eqn:Hy.
  - intros [= ->]. by exists [], l.
  - intros (before & after & -> & Hx & Hbefore)%IH.
    exists (y :: before), after. by repeat constructor.
Qed.

Lemma find_elem_of {A} (f : A → bool) (l : list A) (x : A) :
  x ∈ l → f x = true → is_Some (find f l).
Proof.
  induction 1 as [x l|x y l _ IH]; simpl; intros Hx.
  - by rewrite Hx.
  - destruct (f y); [done|]. by apply IH.
Qed.

Section Lookup.
Context `{JsEnv} {W : Type}.
Implicit Types (walletClient : EVMWalletClient W) (h : Heap W).

Lemma symbol_matches_true (s : string) (token : Token) :
  symbol_matches s token = true ↔ matches s token.
Proof.
  unfold symbol_matches, matches. rewrite bool_decide_eq_true.
  rewrite !elem_of_cons, elem_of_nil. tauto.
Qed.

Lemma symbol_matches_false (s : string) (token : Token) :
  symbol_matches s token = false ↔ ¬ matches s token.
Proof.
  rewrite <- symbol_matches_true. by destruct (symbol_matches s token).
Qed.

Lemma no_match_find (s : string) (tokens : list Token) :
  Forall (λ t, ¬ matches s t) tokens → find (symbol_matches s) tokens = None.
Proof.
  intros Hnone. apply find_all_false.
  eapply Forall_impl; [done|]. intros t. by rewrite symbol_matches_false.
Qed.

Lemma first_match_find (s : string) (tokens : list Token) (token : Token) :
  first_match s tokens token ↔ find (symbol_matches s) tokens = Some token.
Proof.
  split.
  - intros (before & after & -> & Hmatch & Hbefore). apply find_app_first.
    + eapply Forall_impl; [done|]. intros t. by rewrite symbol_matches_false.
    + by apply symbol_matches_true.
  - intros (before & after & -> & Hmatch & Hbefore)%find_split.
    exists before, after. split_and!; [done|by apply symbol_matches_true|].
    eapply Forall_impl; [done|]. intros t. by rewrite symbol_matches_false.
Qed.

Lemma first_match_unique (s : string) (tokens : list Token) (t1 t2 : Token) :
  first_match s tokens t1 → first_match s tokens t2 → t1 = t2.
Proof. rewrite !first_match_find. congruence. Qed.

Lemma first_match_exists (s : string) (tokens : list Token) (token : Token) :
  token ∈ tokens → matches s token → ∃ t, first_match s tokens t.
Proof.
  intros Hin Hmatch%symbol_matches_true.
  destruct (find_elem_of _ _ _ Hin Hmatch) as [t Ht].
  exists t. by apply first_match_find.
Qed.

(** [getTokenInfoBySymbol], step by step. *)
Lemma getTokenInfoBySymbol_run walletClient
    (p : GetTokenInfoBySymbolParameters.t) h :
  getTokenInfoBySymbol walletClient p h
  = let s := GetTokenInfoBySymbolParameters.symbol p in
    match find (symbol_matches s) (tokens (this h)) with
    | None => (inl (Error (not_found_message s)), h)
    | Some token =>
        let '(r, w) := getChain walletClient (client h) in
        let h' := {| this := this h; client := w;
                     trace := trace h ++ [(CallGetChain, failure r)] |} in
        match r with
        | inl e => (inl e, h')
        | inr chain => (outcome_on_chain s token chain, h')
        end
    end.
Proof.
  unfold getTokenInfoBySymbol. unfold_monad.
  destruct (find _ _) as [token|]; [|done].
  answer; [done|]. unfold outcome_on_chain, falsy.
  destruct (contractAddress_on token _) as [a|]; simpl; [|done].
  case_bool_decide; by case_decide.
Qed.

Lemma lookup_first_match walletClient (p : GetTokenInfoBySymbolParameters.t) h
    (token : Token) (chain : Chain) (w : W) :
  first_match (GetTokenInfoBySymbolParameters.symbol p) (tokens (this h)) token →
  getChain walletClient (client h) = (inr chain, w) →
  (getTokenInfoBySymbol walletClient p h).1
  = outcome_on_chain (GetTokenInfoBySymbolParameters.symbol p) token chain.
Proof.
  intros Hfirst%first_match_find Hchain.
  rewrite getTokenInfoBySymbol_run. simpl. by rewrite Hfirst, Hchain.
Qed.
End Lookup.

(** ** The two messages of the lookup *)

Lemma string_app_nonempty (s t : string) : t ≠ "" → s +:+ t ≠ "".
Proof. by destruct s, t. Qed.

Lemma ends_in_app (c : Ascii.ascii) (s t : string) :
  t ≠ "" → ends_in c (s +:+ t) = ends_in c t.
Proof.
  intros Ht. induction s as [|a s IH]; [done|].
  change (ends_in c (String a (s +:+ t)) = ends_in c t).
  rewrite <- IH. simpl. destruct (s +:+ t) eqn:Hst; [|done].
  by destruct s, t.
Qed.

Lemma pretty_N_go_extends (x : N) (s : string) :
  ∃ digits, pretty_N_go x s = digits +:+ s.
Proof.
  revert s. induction (N.lt_wf_0 x) as [x _ IH]; intros s.
  assert (x = 0 ∨ 0 < x)%N as [->|Hpos] by lia.
  - by exists "".
  - rewrite pretty_N_go_step by done.
    assert (x `div` 10 < x)%N as Hlt by (by apply N.div_lt).
    destruct (IH (x `div` 10)%N Hlt
                 (String (pretty_N_char (x `mod` 10)) s)) as [digits ->].
    exists (digits +:+ String (pretty_N_char (x `mod` 10)) "").
    by rewrite string_app_assoc.
Qed.

(** A number is printed with a digit at the end. *)
Lemma pretty_N_ends_in_digit (n : N) :
  pretty n ≠ "" ∧ ends_in "d"%char (pretty n) = false.
Proof.
  unfold pretty, pretty_N. case_decide as Hn; [done|].
  rewrite pretty_N_go_step by lia.
  destruct (pretty_N_go_extends (n `div` 10)
              (String (pretty_N_char (n `mod` 10)) "")) as [digits ->].
  split; [by destruct digits|].
  rewrite ends_in_app by done. unfold pretty_N_char. by repeat case_match.
Qed.

(** The message of the first [throw] of the lookup is never the message of
    the second, whatever the symbols and the chain. *)
Lemma messages_distinct (s s' : string) (chain : Chain) :
  not_found_message s ≠ not_found_on_chain_message s' chain.
Proof.
  intros Heq. apply (f_equal (ends_in "d"%char)) in Heq.
  unfold not_found_message, not_found_on_chain_message in Heq.
  destruct (pretty_N_ends_in_digit (chain_id chain)) as [Hne Hdigit].
  rewrite !ends_in_app in Heq by (by repeat apply string_app_nonempty).
  by rewrite Hdigit in Heq.
Qed.

Section Claims_on_lookup.
Context `{JsEnv} {W : Type}.
Implicit Types (walletClient : EVMWalletClient W) (h : Heap W).

Lemma outcome_on_chain_returns (s : string) (token : Token) (chain : Chain)
    (info : TokenInfo.t) :
  outcome_on_chain s token chain = inr info ↔
  ∃ a, contractAddress_on token chain = Some a ∧ a ≠ "" ∧ info = info_of token a.
Proof.
  unfold outcome_on_chain. split.
  - destruct (contractAddress_on token chain) as [a|]; [|done].
    case_decide; [done|]. intros [= <-]. by exists a.
  - intros (a & -> & Ha & ->). by case_decide.
Qed.

Lemma outcome_on_chain_not_found (s s' : string) (token : Token) (chain : Chain) :
  outcome_on_chain s token chain ≠ inl (Error (not_found_message s')).
Proof.
  unfold outcome_on_chain. intros Heq.
  assert (not_found_message s' = not_found_on_chain_message s chain) as Hmsg.
  { destruct (contractAddress_on token chain) as [a|]; [case_decide|];
      unfold Error in Heq; congruence. }
  exact (messages_distinct _ _ _ Hmsg).
Qed.

(** C10: when the query matches several descriptors (each by its symbol or
    by the lowercase form of its symbol), the lookup selects the first of
    them in the order of the list: with no match before [token], the search
    yields [token], the outcome is the one computed from [token], and every
    object returned is built from [token], whatever follows it in the
    list. *)
Theorem lookup_selects_first_match walletClient
    (p : GetTokenInfoBySymbolParameters.t) h
    (before after : list Token) (token : Token) :
  tokens (this h) = before ++ token :: after →
  matches (GetTokenInfoBySymbolParameters.symbol p) token →
  Forall (λ t, ¬ matches (GetTokenInfoBySymbolParameters.symbol p) t) before →
  find (symbol_matches (GetTokenInfoBySymbolParameters.symbol p))
       (tokens (this h)) = Some token
  ∧ (∀ chain w, getChain walletClient (client h) = (inr chain, w) →
       (getTokenInfoBySymbol walletClient p h).1
       = outcome_on_chain (GetTokenInfoBySymbolParameters.symbol p) token chain)
  ∧ (∀ info, (getTokenInfoBySymbol walletClient p h).1 = inr info →
       ∃ a, info = info_of token a).
Proof.
  intros Htokens Hmatch Hbefore.
  assert (first_match (GetTokenInfoBySymbolParameters.symbol p)
            (tokens (this h)) token) as Hfirst by by exists before, after.
  split_and!.
  - by apply first_match_find.
  - intros chain w Hchain. by eapply lookup_first_match.
  - intros info. rewrite getTokenInfoBySymbol_run. simpl.
    apply first_match_find in Hfirst as ->.
    destruct (getChain _ _) as [[e|chain] w]; [done|]. simpl.
    intros (a & _ & _ & ->)%outcome_on_chain_returns. by exists a.
Qed.

(** C4 (as amended): a query that matches no descriptor of the list fails
    with the not-found error, for every wallet client and without calling it
    (the heap is unchanged); a query whose first matching descriptor in list
    order, the one the lookup selects, has no contract address on the wallet
    client's chain fails with the not-found-on-chain error; the two errors
    are never equal. *)
Theorem lookup_failures walletClient (s : string) h :
  let p := {| GetTokenInfoBySymbolParameters.symbol := s |} in
  (Forall (λ t, ¬ matches s t) (tokens (this h)) →
     getTokenInfoBySymbol walletClient p h
     = (inl (Error (not_found_message s)), h))
  ∧ (∀ token chain w,
       first_match s (tokens (this h)) token →
       getChain walletClient (client h) = (inr chain, w) →
       contractAddress_on token chain = None
       ∨ contractAddress_on token chain = Some "" →
       (getTokenInfoBySymbol walletClient p h).1
       = inl (Error (not_found_on_chain_message s chain)))
  ∧ (∀ s' chain,
       Error (not_found_message s)
       ≠ Error (not_found_on_chain_message s' chain)).
Proof.
  intros p. split_and!.
  - intros Hnone%no_match_find. rewrite getTokenInfoBySymbol_run. simpl.
    by rewrite Hnone.
  - intros token chain w Hfirst Hchain Hnone.
    rewrite (lookup_first_match _ p _ token chain w) by done.
    unfold outcome_on_chain. by destruct Hnone as [-> | ->].
  - intros s' chain Heq. apply (messages_distinct s s' chain).
    unfold Error in Heq. congruence.
Qed.

(** C2 (as amended): when the query is the symbol of a registered
    descriptor [D] exactly, or the lowercase form of that symbol, the lookup
    does not fail with the not-found error: it selects the first descriptor
    of the list that the query matches, which is [D] when no descriptor
    before [D] matches the query. *)
Theorem lookup_by_symbol_or_lowercase walletClient h (D : Token) (s : string)
    (before after : list Token) (chain : Chain) (w : W) :
  tokens (this h) = before ++ D :: after →
  s = symbol D ∨ s = toLowerCase (symbol D) →
  getChain walletClient (client h) = (inr chain, w) →
  let result :=
    (getTokenInfoBySymbol walletClient
       {| GetTokenInfoBySymbolParameters.symbol := s |} h).1 in
  ∃ T, first_match s (tokens (this h)) T
       ∧ result = outcome_on_chain s T chain
       ∧ result ≠ inl (Error (not_found_message s))
       ∧ (Forall (λ t, ¬ matches s t) before → T = D).
Proof.
  intros Htokens Hs Hchain result.
  destruct (first_match_exists s (tokens (this h)) D) as [T HT]; [|done|].
  { rewrite Htokens, elem_of_app, elem_of_cons. by right; left. }
  assert (result = outcome_on_chain s T chain) as Hresult.
  { subst result.
    by rewrite (lookup_first_match _
                  {| GetTokenInfoBySymbolParameters.symbol := s |} _ T chain w). }
  exists T. split_and!; [done..| |].
  - rewrite Hresult. apply outcome_on_chain_not_found.
  - intros Hbefore. apply (first_match_unique s (tokens (this h))); [done|].
    by exists before, after.
Qed.

(** C5 (as amended): in a registry built by the constructor where no
    descriptor before [D] matches the symbol of [D], looking up the symbol
    of [D] on a chain for which [D] registers a (non-empty) address returns
    the object with the symbol, id, decimals, name, uri and total supply of
    [D] and with that address as contract address, and nothing else. *)
Theorem lookup_round_trip walletClient h (D : Token)
    (before after : list Token) (chain : Chain) (w : W) (a : string) :
  this h = constructor (Some (before ++ D :: after)) →
  Forall (λ t, ¬ matches (symbol D) t) before →
  getChain walletClient (client h) = (inr chain, w) →
  chains D !! chain_id chain = Some {| contractAddress := a |} →
  a ≠ "" →
  (getTokenInfoBySymbol walletClient
     {| GetTokenInfoBySymbolParameters.symbol := symbol D |} h).1
  = inr {| TokenInfo.symbol := symbol D;
           TokenInfo.contractAddress := a;
           TokenInfo.id := id D;
           TokenInfo.decimals := decimals D;
           TokenInfo.name := name D;
           TokenInfo.uri := uri D;
           TokenInfo.totalSupply := totalSupply D |}.
Proof.
  intros Hthis Hbefore Hchain Haddress Ha.
  rewrite (lookup_first_match _ _ _ D chain w); [|simpl|done].
  - unfold outcome_on_chain, contractAddress_on. rewrite Haddress. simpl.
    by case_decide.
  - exists before, after. rewrite Hthis. split_and!; [done|by left|done].
Qed.

(** C6 (as amended): for a registered descriptor [D] such that no descriptor
    before it in the list matches the symbol of [D] or the lowercase form of
    that symbol, the query by the exact symbol and the query by its
    lowercase form both select [D]; on a given chain they return the same
    object, or both fail (each error names its own query). *)
Theorem lookup_exact_and_lowercase_agree walletClient h (D : Token)
    (before after : list Token) :
  tokens (this h) = before ++ D :: after →
  Forall (λ t, ¬ matches (symbol D) t
               ∧ ¬ matches (toLowerCase (symbol D)) t) before →
  let exact := {| GetTokenInfoBySymbolParameters.symbol := symbol D |} in
  let lowercase :=
    {| GetTokenInfoBySymbolParameters.symbol := toLowerCase (symbol D) |} in
  first_match (symbol D) (tokens (this h)) D
  ∧ first_match (toLowerCase (symbol D)) (tokens (this h)) D
  ∧ ∀ chain w, getChain walletClient (client h) = (inr chain, w) →
      (getTokenInfoBySymbol walletClient exact h).1
      = outcome_on_chain (symbol D) D chain
      ∧ (getTokenInfoBySymbol walletClient lowercase h).1
        = outcome_on_chain (toLowerCase (symbol D)) D chain
      ∧ ∀ info, (getTokenInfoBySymbol walletClient exact h).1 = inr info
                ↔ (getTokenInfoBySymbol walletClient lowercase h).1 = inr info.
Proof.
  intros Htokens Hbefore exact lowercase.
  assert (first_match (symbol D) (tokens (this h)) D) as Hexact.
  { exists before, after. split_and!; [done|by left|].
    eapply Forall_impl; [done|]. by intros t [? ?]. }
  assert (first_match (toLowerCase (symbol D)) (tokens (this h)) D) as Hlower.
  { exists before, after. split_and!; [done|by right|].
    eapply Forall_impl; [done|]. by intros t [? ?]. }
  split_and!; [done..|]. intros chain w Hchain.
  rewrite (lookup_first_match _ exact _ D chain w) by done.
  rewrite (lookup_first_match _ lowercase _ D chain w) by done.
  split_and!; [done..|]. intros info.
  by rewrite !outcome_on_chain_returns.
Qed.
End Claims_on_lookup.

(** ** Runs on the sample environment *)

Section Concrete_runs.
#[local] Existing Instance Sample.env.

(** The scenarios of the specification. *)
Example lookup_gold_lowercase :
  (getTokenInfoBySymbol (Sample.walletClient VUndefined)
     {| GetTokenInfoBySymbolParameters.symbol := "gold" |}
     (Sample.heap [Sample.GOLD])).1
  = inr {| TokenInfo.symbol := "GOLD"; TokenInfo.contractAddress := "0xAAA";
           TokenInfo.id := VNumber 1; TokenInfo.decimals := VNumber 0;
           TokenInfo.name := VString "Gold"; TokenInfo.uri := VString "ipfs://gold";
           TokenInfo.totalSupply := VNumber 1000 |}.
Proof. vm_compute. reflexivity. Qed.

Example balanceOf_alice :
  (balanceOf (Sample.walletClient (VBigInt 5))
     {| BalanceOfParameters.tokenAddress := "0xAAA";
        BalanceOfParameters.owner := "alice.eth";
        BalanceOfParameters.id := VNumber 1 |}
     (Sample.heap [])).1
  = inr (VNumber 5).
Proof. reflexivity. Qed.

Example safeTransferFrom_rejected :
  (safeTransferFrom Sample.rejectingClient
     {| SafeTransferFromParameters.tokenAddress := "0xAAA";
        SafeTransferFromParameters.from := "alice.eth";
        SafeTransferFromParameters.to := "bob.eth";
        SafeTransferFromParameters.id := VNumber 1;
        SafeTransferFromParameters.value := VNumber 10;
        SafeTransferFromParameters.data := None |}
     (Sample.heap [])).1
  = inl (Error "Failed to transfer: Error: insufficient funds").
Proof. reflexivity. Qed.

(** C1: on a wallet client whose [read] resolves to the object with [value]
    [true], [isApprovedForAll] returns that object, not the boolean in it;
    [balanceOf], on the same kind of answer, returns what it made of the
    [value] property. *)
Theorem isApprovedForAll_returns_the_read_object :
  let result :=
    (isApprovedForAll (Sample.walletClient (VBool true))
       {| IsApprovedForAllParameters.tokenAddress := "0xAAA";
          IsApprovedForAllParameters.owner := "alice.eth";
          IsApprovedForAllParameters.operator := "bob.eth" |}
       (Sample.heap [])).1 in
  result = inr {| value := VBool true |}
  ∧ ReadResult_object {| value := VBool true |}
    = VObject [("value", VBool true)]
  ∧ ReadResult_object {| value := VBool true |} ≠ VBool true
  ∧ (balanceOf (Sample.walletClient (VBigInt 5))
       {| BalanceOfParameters.tokenAddress := "0xAAA";
          BalanceOfParameters.owner := "alice.eth";
          BalanceOfParameters.id := VNumber 1 |}
       (Sample.heap [])).1 = inr (VNumber 5).
Proof. by split_and!. Qed.

(** C2, as stated, fails: [Gold] equals the symbol [GOLD] up to letter
    case, and the lookup of [Gold] throws the not-found error. *)
Lemma lookup_mixed_case_not_found :
  Sample.GOLD ∈ tokens (this (Sample.heap [Sample.GOLD]))
  ∧ toLowerCase "Gold" = toLowerCase (symbol Sample.GOLD)
  ∧ getTokenInfoBySymbol (Sample.walletClient VUndefined)
      {| GetTokenInfoBySymbolParameters.symbol := "Gold" |}
      (Sample.heap [Sample.GOLD])
    = (inl (Error "Token with symbol Gold not found"),
       Sample.heap [Sample.GOLD]).
Proof. split_and!; [apply list_elem_of_here|done..]. Qed.

Lemma lookup_by_symbol_or_lowercase_witness :
  ∃ T, first_match "gold" [Sample.GOLD] T
       ∧ (getTokenInfoBySymbol (Sample.walletClient VUndefined)
            {| GetTokenInfoBySymbolParameters.symbol := "gold" |}
            (Sample.heap [Sample.GOLD])).1
         = outcome_on_chain "gold" T {| chain_id := 1 |}
       ∧ (getTokenInfoBySymbol (Sample.walletClient VUndefined)
            {| GetTokenInfoBySymbolParameters.symbol := "gold" |}
            (Sample.heap [Sample.GOLD])).1
         ≠ inl (Error (not_found_message "gold"))
       ∧ (Forall (λ t, ¬ matches "gold" t) [] → T = Sample.GOLD).
Proof.
  apply (lookup_by_symbol_or_lowercase (Sample.walletClient VUndefined)
           (Sample.heap [Sample.GOLD]) Sample.GOLD "gold" [] []
           {| chain_id := 1 |} ()).
  - reflexivity.
  - right. reflexivity.
  - reflexivity.
Defined.

(** C3, as stated, fails: two owners and two ids are passed, the wallet
    client's [read] returns an array of one balance, and the call succeeds
    with one number. *)
Lemma balanceOfBatch_short_answer :
  let p := {| BalanceOfBatchParameters.tokenAddress := "0xAAA";
              BalanceOfBatchParameters.owners := ["alice.eth"; "bob.eth"];
              BalanceOfBatchParameters.ids := [VNumber 1; VNumber 2] |} in
  (balanceOfBatch (Sample.walletClient (VArray [VBigInt 7])) p
     (Sample.heap [])).1 = inr [VNumber 7]
  ∧ length [VNumber 7] ≠ length (BalanceOfBatchParameters.owners p)
  ∧ length [VNumber 7] ≠ length (BalanceOfBatchParameters.ids p).
Proof. by split_and!. Qed.
Lemma balanceOfBatch_converts_what_read_returns_witness :
  let p := {| BalanceOfBatchParameters.tokenAddress := "0xAAA";
              BalanceOfBatchParameters.owners := ["alice.eth"; "bob.eth"];
              BalanceOfBatchParameters.ids := [VNumber 1; VNumber 2] |} in
  let walletClient := Sample.walletClient (VArray [VBigInt 7; VBigInt 0]) in
  let balances := [VNumber 7; VNumber 0] in
  (balanceOfBatch walletClient p (Sample.heap [])).1 = inr balances
  ∧ let answers := resolve_each walletClient ["alice.eth"; "bob.eth"] () in
    ∃ (resolvedOwners : list string) (raw : list JsValue) (w2 : ())
      (new : Trace),
    let c := {| ReadCall.address := "0xAAA";
                ReadCall.abi := ERC1155_ABI;
                ReadCall.functionName := "balanceOfBatch";
                ReadCall.args := [VArray (VString <$> resolvedOwners);
                                  VArray [VNumber 1; VNumber 2]] |} in
    settle_all answers.1 = inr resolvedOwners
    ∧ length resolvedOwners = 2
    ∧ (∀ i, answers.1 !! i = inr <$> resolvedOwners !! i)
    ∧ trace (balanceOfBatch walletClient p (Sample.heap [])).2 = [] ++ new
    ∧ reads new = [c]
    ∧ read walletClient c answers.2 = (inr {| value := VArray raw |}, w2)
    ∧ balances = Number <$> raw
    ∧ length balances = length raw
    ∧ (∀ i, balances !! i = Number <$> raw !! i)
    ∧ (length raw = 2 → length balances = 2).
Proof.
  split; [reflexivity|].
  apply (balanceOfBatch_converts_what_read_returns
           (Sample.walletClient (VArray [VBigInt 7; VBigInt 0]))
           {| BalanceOfBatchParameters.tokenAddress := "0xAAA";
              BalanceOfBatchParameters.owners := ["alice.eth"; "bob.eth"];
              BalanceOfBatchParameters.ids := [VNumber 1; VNumber 2] |}
           (Sample.heap []) [VNumber 7; VNumber 0]).
  reflexivity.
Defined.

Lemma lookup_failures_witness :
  getTokenInfoBySymbol (Sample.walletClient VUndefined)
    {| GetTokenInfoBySymbolParameters.symbol := "COPPER" |}
    (Sample.heap [Sample.GOLD; Sample.SILVER])
  = (inl (Error "Token with symbol COPPER not found"),
     Sample.heap [Sample.GOLD; Sample.SILVER])
  ∧ (getTokenInfoBySymbol (Sample.walletClient VUndefined)
       {| GetTokenInfoBySymbolParameters.symbol := "silver" |}
       (Sample.heap [Sample.GOLD; Sample.SILVER])).1
    = inl (Error "Token with symbol silver not found on chain 1")
  ∧ Error "Token with symbol silver not found"
    ≠ Error "Token with symbol silver not found on chain 1".
Proof.
  split_and!.
  - apply (lookup_failures (Sample.walletClient VUndefined) "COPPER"
             (Sample.heap [Sample.GOLD; Sample.SILVER])).
    repeat constructor; intros [?|?]; discriminate.
  - apply (proj1 (proj2 (lookup_failures (Sample.walletClient VUndefined)
                           "silver" (Sample.heap [Sample.GOLD; Sample.SILVER])))
             Sample.SILVER {| chain_id := 1 |} ()).
    + exists [Sample.GOLD], []. split_and!; [reflexivity|by right|].
      repeat constructor; intros [?|?]; discriminate.
    + reflexivity.
    + left. reflexivity.
  - apply (proj2 (proj2 (lookup_failures (Sample.walletClient VUndefined)
                           "silver" (Sample.heap [Sample.GOLD; Sample.SILVER])))
             "silver" {| chain_id := 1 |}).
Defined.

(** C5, as stated, fails: the registry contains [gold] and the chain of the
    wallet client is in the chain map of [gold], yet looking up its symbol
    returns the fields of [GOLD], which comes first and whose lowercase
    symbol is the query. *)
Lemma lookup_returns_an_earlier_descriptor :
  let D := Sample.gold in
  let h := {| this := constructor (Some [Sample.GOLD; D]);
              client := (); trace := [] |} in
  D ∈ tokens (this h)
  ∧ chains D !! 1%N = Some {| contractAddress := "0xBBB" |}
  ∧ (getTokenInfoBySymbol (Sample.walletClient VUndefined)
       {| GetTokenInfoBySymbolParameters.symbol := symbol D |} h).1
    = inr (info_of Sample.GOLD "0xAAA")
  ∧ info_of Sample.GOLD "0xAAA" ≠ info_of D "0xBBB"
  ∧ TokenInfo.id (info_of Sample.GOLD "0xAAA") ≠ id D.
Proof.
  split_and!; [|done..].
  apply list_elem_of_further, list_elem_of_here.
Qed.

Lemma lookup_round_trip_witness :
  (getTokenInfoBySymbol Sample.polygonClient
     {| GetTokenInfoBySymbolParameters.symbol := "SILVER" |}
     {| this := constructor (Some [Sample.GOLD; Sample.SILVER]);
        client := (); trace := [] |}).1
  = inr {| TokenInfo.symbol := "SILVER";
           TokenInfo.contractAddress := "0xCCC";
           TokenInfo.id := VNumber 3;
           TokenInfo.decimals := VNumber 0;
           TokenInfo.name := VString "Silver";
           TokenInfo.uri := VString "ipfs://silver";
           TokenInfo.totalSupply := VNumber 50 |}.
Proof.
  apply (lookup_round_trip Sample.polygonClient
           {| this := constructor (Some [Sample.GOLD; Sample.SILVER]);
              client := (); trace := [] |}
           Sample.SILVER [Sample.GOLD] [] {| chain_id := 137 |} () "0xCCC").
  - reflexivity.
  - repeat constructor; intros [?|?]; discriminate.
  - reflexivity.
  - reflexivity.
  - discriminate.
Defined.
(** C6, as stated, fails: [GOLD] is registered, the query by its exact
    symbol returns its fields, and the query by the lowercase form of its
    symbol returns the fields of [gold], which comes first in the list. *)
Lemma lookup_exact_and_lowercase_differ :
  let D := Sample.GOLD in
  let h := Sample.heap [Sample.gold; D] in
  D ∈ tokens (this h)
  ∧ (getTokenInfoBySymbol (Sample.walletClient VUndefined)
       {| GetTokenInfoBySymbolParameters.symbol := symbol D |} h).1
    = inr (info_of D "0xAAA")
  ∧ (getTokenInfoBySymbol (Sample.walletClient VUndefined)
       {| GetTokenInfoBySymbolParameters.symbol := toLowerCase (symbol D) |}
       h).1
    = inr (info_of Sample.gold "0xBBB")
  ∧ info_of D "0xAAA" ≠ info_of Sample.gold "0xBBB".
Proof.
  split_and!; [|done..].
  apply list_elem_of_further, list_elem_of_here.
Qed.

Lemma lookup_exact_and_lowercase_agree_witness :
  let D := Sample.SILVER in
  let h := Sample.heap [Sample.GOLD; D] in
  let exact := {| GetTokenInfoBySymbolParameters.symbol := symbol D |} in
  let lowercase :=
    {| GetTokenInfoBySymbolParameters.symbol := toLowerCase (symbol D) |} in
  first_match (symbol D) (tokens (this h)) D
  ∧ first_match (toLowerCase (symbol D)) (tokens (this h)) D
  ∧ ∀ chain w, getChain Sample.polygonClient (client h) = (inr chain, w) →
      (getTokenInfoBySymbol Sample.polygonClient exact h).1
      = outcome_on_chain (symbol D) D chain
      ∧ (getTokenInfoBySymbol Sample.polygonClient lowercase h).1
        = outcome_on_chain (toLowerCase (symbol D)) D chain
      ∧ ∀ info, (getTokenInfoBySymbol Sample.polygonClient exact h).1 = inr info
                ↔ (getTokenInfoBySymbol Sample.polygonClient lowercase h).1
                  = inr info.
Proof.
  apply (lookup_exact_and_lowercase_agree Sample.polygonClient
           (Sample.heap [Sample.GOLD; Sample.SILVER]) Sample.SILVER
           [Sample.GOLD] []).
  - reflexivity.
  - repeat constructor; intros [?|?]; discriminate.
Defined.



Lemma lookup_selects_first_match_witness :
  let p := {| GetTokenInfoBySymbolParameters.symbol := "gold" |} in
  let h := Sample.heap [Sample.SILVER; Sample.GOLD; Sample.gold] in
  find (symbol_matches "gold") (tokens (this h)) = Some Sample.GOLD
  ∧ (∀ chain w, getChain (Sample.walletClient VUndefined) (client h)
                = (inr chain, w) →
       (getTokenInfoBySymbol (Sample.walletClient VUndefined) p h).1
       = outcome_on_chain "gold" Sample.GOLD chain)
  ∧ (∀ info,
       (getTokenInfoBySymbol (Sample.walletClient VUndefined) p h).1
       = inr info →
       ∃ a, info = info_of Sample.GOLD a).
Proof.
  apply (lookup_selects_first_match (Sample.walletClient VUndefined)
           {| GetTokenInfoBySymbolParameters.symbol := "gold" |}
           (Sample.heap [Sample.SILVER; Sample.GOLD; Sample.gold])
           [Sample.SILVER] [Sample.gold] Sample.GOLD).
  - reflexivity.
  - right. reflexivity.
  - repeat constructor; intros [?|?]; discriminate.
Defined.
End Concrete_runs.

(** * Further properties of the methods *)

Lemma find_app_found {A} (f : A → bool) (l extra : list A) (x : A) :
  find f l = Some x → find f (l ++ extra) = Some x.
Proof.
  induction l as [|y l IH]; simpl; [done|]. by destruct (f y).
Qed.

Section Single_calls.
Context `{JsEnv} {W : Type}.
Implicit Types (walletClient : EVMWalletClient W) (h : Heap W).


(** X2: [safeTransferFrom], when nothing fails: [from] is resolved, then [to],
    then one transaction is sent, and the result is the [hash] of what
    [sendTransaction] returned. *)
Theorem safeTransferFrom_returns_hash walletClient
    (p : SafeTransferFromParameters.t) h (from to : string) (w1 w2 w3 : W)
    (tx : TxResult) :
  let c := {| TxCall.to := SafeTransferFromParameters.tokenAddress p;
              TxCall.abi := ERC1155_ABI;
              TxCall.functionName := "safeTransferFrom";
              TxCall.args :=
                [VString from; VString to; SafeTransferFromParameters.id p;
                 SafeTransferFromParameters.value p;
                 VString (default "0x" (SafeTransferFromParameters.data p))] |} in
  resolveAddress walletClient (SafeTransferFromParameters.from p) (client h)
    = (inr from, w1) →
  resolveAddress walletClient (SafeTransferFromParameters.to p) w1
    = (inr to, w2) →
  sendTransaction walletClient c w2 = (inr tx, w3) →
  safeTransferFrom walletClient p h
  = (inr (hash tx),
     {| this := this h; client := w3;
        trace := trace h
          ++ [(CallResolveAddress (SafeTransferFromParameters.from p), None);
              (CallResolveAddress (SafeTransferFromParameters.to p), None);
              (CallSendTransaction c, None)] |}).
Proof.
  intros c Hfrom Hto Hsend. unfold safeTransferFrom. unfold_monad.
  rewrite Hfrom. simpl. rewrite Hto. simpl. fold c. rewrite Hsend. simpl.
  by rewrite <- !app_assoc.
Qed.

(** X3: [safeBatchTransferFrom], when nothing fails: the same three calls, the
    ids and values passed as arrays, and the [hash] returned. *)
Theorem safeBatchTransferFrom_returns_hash walletClient
    (p : SafeBatchTransferFromParameters.t) h (from to : string)
    (w1 w2 w3 : W) (tx : TxResult) :
  let c := {| TxCall.to := SafeBatchTransferFromParameters.tokenAddress p;
              TxCall.abi := ERC1155_ABI;
              TxCall.functionName := "safeBatchTransferFrom";
              TxCall.args :=
                [VString from; VString to;
                 VArray (SafeBatchTransferFromParameters.ids p);
                 VArray (SafeBatchTransferFromParameters.values p);
                 VString (default "0x"
                            (SafeBatchTransferFromParameters.data p))] |} in
  resolveAddress walletClient (SafeBatchTransferFromParameters.from p) (client h)
    = (inr from, w1) →
  resolveAddress walletClient (SafeBatchTransferFromParameters.to p) w1
    = (inr to, w2) →
  sendTransaction walletClient c w2 = (inr tx, w3) →
  safeBatchTransferFrom walletClient p h
  = (inr (hash tx),
     {| this := this h; client := w3;
        trace := trace h
          ++ [(CallResolveAddress (SafeBatchTransferFromParameters.from p), None);
              (CallResolveAddress (SafeBatchTransferFromParameters.to p), None);
              (CallSendTransaction c, None)] |}).
Proof.
  intros c Hfrom Hto Hsend. unfold safeBatchTransferFrom. unfold_monad.
  rewrite Hfrom. simpl. rewrite Hto. simpl. fold c. rewrite Hsend. simpl.
  by rewrite <- !app_assoc.
Qed.

(** X4: [setApprovalForAll], when nothing fails: the operator is resolved, one
    transaction [setApprovalForAll] is sent to the token address with the
    resolved operator and the flag, and the [hash] is returned. *)
Theorem setApprovalForAll_returns_hash walletClient
    (p : SetApprovalForAllParameters.t) h (operator : string) (w1 w2 : W)
    (tx : TxResult) :
  let c := {| TxCall.to := SetApprovalForAllParameters.tokenAddress p;
              TxCall.abi := ERC1155_ABI;
              TxCall.functionName := "setApprovalForAll";
              TxCall.args :=
                [VString operator;
                 VBool (SetApprovalForAllParameters.approved p)] |} in
  resolveAddress walletClient (SetApprovalForAllParameters.operator p) (client h)
    = (inr operator, w1) →
  sendTransaction walletClient c w1 = (inr tx, w2) →
  setApprovalForAll walletClient p h
  = (inr (hash tx),
     {| this := this h; client := w2;
        trace := trace h
          ++ [(CallResolveAddress (SetApprovalForAllParameters.operator p), None);
              (CallSendTransaction c, None)] |}).
Proof.
  intros c Hoperator Hsend. unfold setApprovalForAll. unfold_monad.
  rewrite Hoperator. simpl. fold c. rewrite Hsend. simpl.
  by rewrite <- app_assoc.
Qed.
End Single_calls.

Ltac not_in_trace :=
  let Hin := fresh in
  intros Hin; simpl in Hin;
  repeat (apply elem_of_cons in Hin as [Hin|Hin]; [discriminate Hin|]);
  by apply elem_of_nil in Hin.

Section Every_method.
Context `{JsEnv} {W : Type}.
Implicit Types (walletClient : EVMWalletClient W) (h : Heap W).

(** X5: No failure of the wallet client is swallowed: when a method returns, all
    the calls it made on the wallet client returned. *)
Theorem returning_means_no_call_failed walletClient (i : Invocation) h :
  (invoke walletClient i h).1 = None →
  ∃ new, trace (invoke walletClient i h).2 = trace h ++ new
         ∧ first_failure new = None
         ∧ Forall (λ entry, entry.2 = None) new.
Proof.
  intros Hreturns.
  cut (∃ new, trace (invoke walletClient i h).2 = trace h ++ new
              ∧ first_failure new = None).
  { intros (new & ? & ?). exists new. split_and!; [done..|].
    by apply first_failure_None. }
  destruct (catch_prefix i) as [prefix|] eqn:Hprefix.
  - destruct (invoke_catch_cases walletClient i prefix h Hprefix)
      as (new & Htrace & [[Hnone _]|(c & cause & _ & _ & Hthrown)]);
      [by exists new|congruence].
  - destruct i as [p|p|p|p|p|p|p]; try done. revert Hreturns. simpl.
    unfold thrown_by. rewrite getTokenInfoBySymbol_run. simpl.
    destruct (find _ _); simpl; [|by exists []; rewrite app_nil_r].
    destruct (getChain _ _) as [[e|chain] w]; [done|]. simpl. intros _.
    by give_trace.
Qed.


(** X7: The methods that await their calls one after the other (all but
    [balanceOfBatch]) stop at the first call that fails: in what a method
    adds to the trace, every call but the last one returned. *)
Theorem sequential_methods_stop_at_first_failure walletClient
    (i : Invocation) h :
  (∀ p, i ≠ BalanceOfBatch p) →
  ∃ new, trace (invoke walletClient i h).2 = trace h ++ new
         ∧ ∀ k entry, new !! k = Some entry → S k < length new →
                      entry.2 = None.
Proof.
  intros Hseq. destruct i as [p|p|p|p|p|p|p]; simpl;
    [| |by destruct (Hseq p)|..].
  - unfold thrown_by. rewrite getTokenInfoBySymbol_run. simpl.
    destruct (find _ _); simpl.
    + destruct (getChain _ _) as [[e|chain] w]; simpl; give_trace;
        intros [|k] entry; simpl; intros; simplify_eq/=; lia.
    + exists []. split; [by rewrite app_nil_r|]. by intros k entry.
  - unfold balanceOf. run; give_trace;
      intros [|[|k]] entry; simpl; intros; simplify_eq/=; try lia; done.
  - unfold safeTransferFrom. run; give_trace;
      intros [|[|[|k]]] entry; simpl; intros; simplify_eq/=; try lia; done.
  - unfold safeBatchTransferFrom. run; give_trace;
      intros [|[|[|k]]] entry; simpl; intros; simplify_eq/=; try lia; done.
  - unfold setApprovalForAll. run; give_trace;
      intros [|[|k]] entry; simpl; intros; simplify_eq/=; try lia; done.
  - unfold isApprovedForAll. run; give_trace;
      intros [|[|[|k]]] entry; simpl; intros; simplify_eq/=; try lia; done.
Qed.
End Every_method.

(** A trace of calls of [resolveAddress] has no other call. *)
Lemma only_resolves (t : Trace) (called : list string) :
  t.*1 = CallResolveAddress <$> called →
  sent t = [] ∧ reads t = [] ∧ CallGetChain ∉ t.*1.
Proof.
  revert called. induction t as [|[c o] t IH]; intros [|a called] Ht;
    simplify_eq/=.
  - split_and!; [done..|]. by intros ?%elem_of_nil.
  - destruct (IH called) as (Hsent & Hreads & Hchain); [done|].
    split_and!; [done..|]. rewrite elem_of_cons. by intros [?|?].
Qed.

Section Kinds_of_calls.
Context `{JsEnv} {W : Type}.
Implicit Types (walletClient : EVMWalletClient W) (h : Heap W).

(** X8: Which methods of the wallet client a method of the service may call:
    the lookup and the three queries never send a transaction, the two
    transfers and the approval never read, only the lookup asks for the
    chain, and the lookup resolves no address. *)
Theorem methods_keep_to_their_calls walletClient (i : Invocation) h :
  ∃ new, trace (invoke walletClient i h).2 = trace h ++ new ∧
    match i with
    | GetTokenInfoBySymbol _ =>
        sent new = [] ∧ reads new = []
        ∧ ∀ identifier, CallResolveAddress identifier ∉ new.*1
    | BalanceOf _ | BalanceOfBatch _ | IsApprovedForAll _ =>
        sent new = [] ∧ CallGetChain ∉ new.*1
    | SafeTransferFrom _ | SafeBatchTransferFrom _ | SetApprovalForAll _ =>
        reads new = [] ∧ CallGetChain ∉ new.*1
    end.
Proof.
  destruct i as [p|p|p|p|p|p|p]; simpl.
  - unfold thrown_by. rewrite getTokenInfoBySymbol_run. simpl.
    destruct (find _ _); simpl.
    + destruct (getChain _ _) as [[e|chain] w]; simpl; give_trace;
        (split_and!; [done..|]); intros identifier; not_in_trace.
    + exists []. split; [by rewrite app_nil_r|].
      split_and!; [done..|]. intros identifier. not_in_trace.
  - unfold balanceOf. run; give_trace; (split; [done|not_in_trace]).
  - unfold thrown_by. rewrite balanceOfBatch_run. simpl.
    destruct (start_each_calls walletClient
                (BalanceOfBatchParameters.owners p) (client h))
      as (called & Hcalls & _).
    destruct (start_each _ _ _) as [[started w1] entries]. simpl in Hcalls.
    destruct (only_resolves entries called Hcalls) as (Hsent & _ & Hchain).
    destruct started as [e|promises]; simpl; [by give_trace|].
    destruct (settle_all promises) as [rejected|resolvedOwners]; simpl;
      [by give_trace|].
    answer; [|destruct (array_map _ _)]; give_trace;
      (split;
       [unfold sent; rewrite omap_app; fold (sent entries); by rewrite Hsent
       |rewrite fmap_app, elem_of_app; intros [?|Hin]; [done|];
        revert Hin; not_in_trace]).
  - unfold safeTransferFrom. run; give_trace; (split; [done|not_in_trace]).
  - unfold safeBatchTransferFrom. run; give_trace; (split; [done|not_in_trace]).
  - unfold setApprovalForAll. run; give_trace; (split; [done|not_in_trace]).
  - unfold isApprovedForAll. run; give_trace; (split; [done|not_in_trace]).
Qed.

(** X9: The six methods with a [catch] block do not read the registry: on
    another service object, with the same wallet client in the same state,
    a call throws or not alike and leaves the wallet client and the trace
    alike. *)
Theorem wallet_methods_ignore_the_registry walletClient (i : Invocation)
    (prefix : string) h (service : Erc1155Service) :
  catch_prefix i = Some prefix →
  let h' := {| this := service; client := client h; trace := trace h |} in
  (invoke walletClient i h').1 = (invoke walletClient i h).1
  ∧ client (invoke walletClient i h').2 = client (invoke walletClient i h).2
  ∧ trace (invoke walletClient i h').2 = trace (invoke walletClient i h).2.
Proof.
  intros Hprefix h'. subst h'.
  destruct i as [p|p|p|p|p|p|p]; simplify_eq/=.
  - unfold balanceOf. by run.
  - unfold thrown_by. rewrite !balanceOfBatch_run. simpl.
    destruct (start_each _ _ _) as [[[e|promises] w1] entries]; [done|].
    destruct (settle_all promises); [done|].
    answer; [done|]. by destruct (array_map _ _).
  - unfold safeTransferFrom. by run.
  - unfold safeBatchTransferFrom. by run.
  - unfold setApprovalForAll. by run.
  - unfold isApprovedForAll. by run.
Qed.
End Kinds_of_calls.

Section More_on_lookup.
Context `{JsEnv} {W : Type}.
Implicit Types (walletClient : EVMWalletClient W) (h : Heap W).

(** X10: Every object the lookup returns comes from the registry: it is built
    from the first descriptor of the list whose symbol, or lowercase symbol,
    is the query, and its contract address is the non-empty address that
    this descriptor registers for the chain [getChain] returned. *)
Theorem lookup_returns_registered_data walletClient
    (p : GetTokenInfoBySymbolParameters.t) h (info : TokenInfo.t) :
  (getTokenInfoBySymbol walletClient p h).1 = inr info →
  ∃ token chain w,
    token ∈ tokens (this h)
    ∧ first_match (GetTokenInfoBySymbolParameters.symbol p) (tokens (this h)) token
    ∧ getChain walletClient (client h) = (inr chain, w)
    ∧ chains token !! chain_id chain
      = Some {| contractAddress := TokenInfo.contractAddress info |}
    ∧ TokenInfo.contractAddress info ≠ ""
    ∧ info = info_of token (TokenInfo.contractAddress info)
    ∧ (GetTokenInfoBySymbolParameters.symbol p = TokenInfo.symbol info
       ∨ GetTokenInfoBySymbolParameters.symbol p
         = toLowerCase (TokenInfo.symbol info)).
Proof.
  rewrite getTokenInfoBySymbol_run. simpl.
  destruct (find _ _) as [token|] eqn:Hfind; [|done].
  destruct (getChain _ _) as [[e|chain] w] eqn:Hchain; [done|]. simpl.
  intros (a & Haddress & Ha & ->)%outcome_on_chain_returns.
  apply first_match_find in Hfind as Hfirst.
  destruct Hfirst as (before & after & Htokens & Hmatch & Hbefore).
  exists token, chain, w. simpl. split_and!; try done.
  - rewrite Htokens, elem_of_app, elem_of_cons. by right; left.
  - by exists before, after.
  - unfold contractAddress_on in Haddress.
    destruct (chains token !! chain_id chain) as [[a']|]; by simplify_eq/=.
Qed.

(** X11: The lookup has no [catch] block: when a descriptor matches and
    [getChain] throws, the caller gets the thrown value itself. *)
Theorem lookup_passes_on_what_getChain_throws walletClient
    (p : GetTokenInfoBySymbolParameters.t) h (token : Token) (e : Thrown)
    (w : W) :
  token ∈ tokens (this h) →
  matches (GetTokenInfoBySymbolParameters.symbol p) token →
  getChain walletClient (client h) = (inl e, w) →
  getTokenInfoBySymbol walletClient p h
  = (inl e, {| this := this h; client := w;
               trace := trace h ++ [(CallGetChain, Some e)] |}).
Proof.
  intros Hin Hmatch%symbol_matches_true Hchain.
  rewrite getTokenInfoBySymbol_run. simpl.
  destruct (find_elem_of _ _ _ Hin Hmatch) as [t ->]. by rewrite Hchain.
Qed.

(** X12: The lookup asks the wallet client for its chain exactly when some
    descriptor of the list matches the query, and then once. *)
Theorem lookup_calls_getChain_when_matched walletClient
    (p : GetTokenInfoBySymbolParameters.t) h :
  let s := GetTokenInfoBySymbolParameters.symbol p in
  let h' := (getTokenInfoBySymbol walletClient p h).2 in
  (Forall (λ t, ¬ matches s t) (tokens (this h)) → h' = h)
  ∧ (∀ token, token ∈ tokens (this h) → matches s token →
       trace h' = trace h
         ++ [(CallGetChain, failure (getChain walletClient (client h)).1)]
       ∧ client h' = (getChain walletClient (client h)).2).
Proof.
  intros s h'. subst h'. rewrite getTokenInfoBySymbol_run. simpl. fold s. split.
  - intros Hnone%no_match_find. by rewrite Hnone.
  - intros token Hin Hmatch%symbol_matches_true.
    destruct (find_elem_of _ _ _ Hin Hmatch) as [t ->].
    by destruct (getChain _ _) as [[e|chain] w].
Qed.

(** X13: A service constructed without a list of tokens has the empty list:
    every lookup throws the not-found error and calls nothing. *)
Theorem lookup_in_default_registry walletClient (s : string) h :
  this h = constructor None →
  getTokenInfoBySymbol walletClient
    {| GetTokenInfoBySymbolParameters.symbol := s |} h
  = (inl (Error (not_found_message s)), h).
Proof.
  intros Hthis. rewrite getTokenInfoBySymbol_run. simpl. by rewrite Hthis.
Qed.

(** X14: Descriptors added at the end of the list do not change a lookup that
    already selects a descriptor; a lookup that found nothing goes on into
    the added ones. *)
Theorem lookup_stable_under_append walletClient
    (p : GetTokenInfoBySymbolParameters.t) h (extra : list Token) :
  let s := GetTokenInfoBySymbolParameters.symbol p in
  let h' := {| this := {| tokens := tokens (this h) ++ extra |};
               client := client h; trace := trace h |} in
  (∀ token, first_match s (tokens (this h)) token →
     (getTokenInfoBySymbol walletClient p h').1
     = (getTokenInfoBySymbol walletClient p h).1)
  ∧ (Forall (λ t, ¬ matches s t) (tokens (this h)) →
     (getTokenInfoBySymbol walletClient p h').1
     = (getTokenInfoBySymbol walletClient p
          {| this := {| tokens := extra |};
             client := client h; trace := trace h |}).1).
Proof.
  intros s h'. subst h'. rewrite !getTokenInfoBySymbol_run. simpl. fold s.
  split.
  - intros token Hfind%first_match_find.
    rewrite (find_app_found _ _ _ _ Hfind), Hfind.
    by destruct (getChain _ _) as [[e|chain] w].
  - intros Hnone.
    assert (find (symbol_matches s) (tokens (this h) ++ extra)
            = find (symbol_matches s) extra) as ->.
    { induction Hnone as [|t l Ht _ IH]; simpl; [done|].
      apply symbol_matches_false in Ht. by rewrite Ht. }
    destruct (find _ extra); [|done].
    by destruct (getChain _ _) as [[e|chain] w].
Qed.
End More_on_lookup.

Section More_on_batches.
Context `{JsEnv} {W : Type}.
Implicit Types (walletClient : EVMWalletClient W) (h : Heap W).

(** X15: with a wallet client whose [resolveAddress] never throws before
    returning its promise (an [async] function), [balanceOfBatch] hands every
    owner to [resolveAddress], in the order of the list, even after a promise
    was rejected; it reads only when all of them resolved, then once, with
    the ids as given (their number is not checked against the number of
    owners); when some promise was rejected it reads nothing and throws what
    its [catch] block makes of the rejection that came first in time, which
    is one of the rejections. *)
Theorem balanceOfBatch_resolves_every_owner walletClient
    (p : BalanceOfBatchParameters.t) h :
  (∀ owner w, resolveAddress_throws walletClient owner w = false) →
  let owners := BalanceOfBatchParameters.owners p in
  let answers := resolve_each walletClient owners (client h) in
  ∃ new, trace (balanceOfBatch walletClient p h).2 = trace h ++ new
    ∧ take (length owners) new.*1 = CallResolveAddress <$> owners
    ∧ match settle_all answers.1 with
      | inl rejected =>
          let first :=
            first_in_time
              (rejects_first walletClient (rejected.1 :: rejected.2) answers.2)
              rejected in
          new.*1 = CallResolveAddress <$> owners
          ∧ (balanceOfBatch walletClient p h).1
            = inl (rethrown "Failed to fetch batch balances: " first)
          ∧ inl first ∈ answers.1
          ∧ ∃ c, (c, Some first) ∈ new
      | inr resolvedOwners =>
          new.*1 = (CallResolveAddress <$> owners)
            ++ [CallRead
                  {| ReadCall.address := BalanceOfBatchParameters.tokenAddress p;
                     ReadCall.abi := ERC1155_ABI;
                     ReadCall.functionName := "balanceOfBatch";
                     ReadCall.args :=
                       [VArray (VString <$> resolvedOwners);
                        VArray (BalanceOfBatchParameters.ids p)] |}]
      end.
Proof.
  intros Hasync owners answers. subst owners answers.
  rewrite balanceOfBatch_run_all by by right. simpl.
  pose proof (resolve_each_length walletClient
                (BalanceOfBatchParameters.owners p) (client h)) as Hlen.
  destruct (resolve_each _ _ _) as [outcomes w1]. simpl in *.
  pose proof (resolve_entries_calls_of _ _ Hlen) as Hcalls.
  assert (∀ rest : list WalletCall,
            take (length (BalanceOfBatchParameters.owners p))
                 ((CallResolveAddress <$> BalanceOfBatchParameters.owners p) ++ rest)
            = CallResolveAddress <$> BalanceOfBatchParameters.owners p) as Htake.
  { intros rest. rewrite take_app_length'; [done|]. by rewrite length_fmap. }
  pose proof (settle_all_rejections outcomes) as Hrejected.
  destruct (settle_all outcomes) as [rejected|resolvedOwners]; simpl.
  - give_trace. rewrite Hcalls.
    assert (first_in_time
              (rejects_first walletClient (rejected.1 :: rejected.2) w1)
              rejected ∈ rejections outcomes) as Hfirst.
    { rewrite Hrejected. apply first_in_time_elem. }
    split_and!; [|done..| |].
    + by rewrite <- (app_nil_r (_ <$> _)), Htake, app_nil_r.
    + apply list_elem_of_omap in Hfirst as ([e|a] & Hin & He);
        simpl in He; [|done]. by injection He as <-.
    + by apply rejection_in_resolve_entries.
  - answer; [|destruct (array_map _ _)]; give_trace;
      rewrite fmap_app, Hcalls; by rewrite Htake.
Qed.



(** X17: [balanceOfBatch] when the read returns something that is not an array:
    the call of [map] throws inside the [try], and the method throws the
    rethrown [TypeError] instead of returning. *)
Theorem balanceOfBatch_needs_an_array walletClient
    (p : BalanceOfBatchParameters.t) h (resolvedOwners : list string)
    (rawBalances : ReadResult) (w : W) :
  let answers :=
    resolve_each walletClient (BalanceOfBatchParameters.owners p) (client h) in
  settle_all answers.1 = inr resolvedOwners →
  read walletClient
    {| ReadCall.address := BalanceOfBatchParameters.tokenAddress p;
       ReadCall.abi := ERC1155_ABI;
       ReadCall.functionName := "balanceOfBatch";
       ReadCall.args := [VArray (VString <$> resolvedOwners);
                         VArray (BalanceOfBatchParameters.ids p)] |}
    answers.2 = (inr rawBalances, w) →
  (∀ raw, value rawBalances ≠ VArray raw) →
  ∃ text,
    (balanceOfBatch walletClient p h).1
    = inl (Error ("Failed to fetch batch balances: "
                  +:+ toString (ErrorObject "TypeError" text))).
Proof.
  intros answers Hall. subst answers.
  rewrite balanceOfBatch_run_all by (left; by exists resolvedOwners).
  simpl. destruct (resolve_each _ _ _) as [outcomes w1]. simpl in *.
  rewrite Hall. intros -> Hvalue.
  destruct (array_map _ _) as [e|balances] eqn:Hmap.
  - apply array_map_throws in Hmap as [text ->]. by exists text.
  - apply array_map_returns in Hmap as (raw & Hraw & _). by destruct (Hvalue raw).
Qed.
End More_on_batches.

(** ** Runs on the sample environment, for the further properties *)

Section More_concrete_runs.
#[local] Existing Instance Sample.env.


Lemma safeTransferFrom_returns_hash_witness :
  (safeTransferFrom (Sample.walletClient VUndefined)
     {| SafeTransferFromParameters.tokenAddress := "0xAAA";
        SafeTransferFromParameters.from := "alice.eth";
        SafeTransferFromParameters.to := "bob.eth";
        SafeTransferFromParameters.id := VNumber 1;
        SafeTransferFromParameters.value := VNumber 10;
        SafeTransferFromParameters.data := Some "0x1234" |}
     (Sample.heap [])).1 = inr "0xhash".
Proof.
  apply (f_equal fst
           (safeTransferFrom_returns_hash (Sample.walletClient VUndefined)
              {| SafeTransferFromParameters.tokenAddress := "0xAAA";
                 SafeTransferFromParameters.from := "alice.eth";
                 SafeTransferFromParameters.to := "bob.eth";
                 SafeTransferFromParameters.id := VNumber 1;
                 SafeTransferFromParameters.value := VNumber 10;
                 SafeTransferFromParameters.data := Some "0x1234" |}
              (Sample.heap []) "alice.eth" "bob.eth" () () ()
              {| hash := "0xhash" |} eq_refl eq_refl eq_refl)).
Defined.

Lemma safeBatchTransferFrom_returns_hash_witness :
  (safeBatchTransferFrom (Sample.walletClient VUndefined)
     {| SafeBatchTransferFromParameters.tokenAddress := "0xAAA";
        SafeBatchTransferFromParameters.from := "alice.eth";
        SafeBatchTransferFromParameters.to := "bob.eth";
        SafeBatchTransferFromParameters.ids := [VNumber 1; VNumber 2];
        SafeBatchTransferFromParameters.values := [VNumber 10; VNumber 20];
        SafeBatchTransferFromParameters.data := None |}
     (Sample.heap [])).1 = inr "0xhash".
Proof.
  apply (f_equal fst
           (safeBatchTransferFrom_returns_hash (Sample.walletClient VUndefined)
              {| SafeBatchTransferFromParameters.tokenAddress := "0xAAA";
                 SafeBatchTransferFromParameters.from := "alice.eth";
                 SafeBatchTransferFromParameters.to := "bob.eth";
                 SafeBatchTransferFromParameters.ids := [VNumber 1; VNumber 2];
                 SafeBatchTransferFromParameters.values := [VNumber 10; VNumber 20];
                 SafeBatchTransferFromParameters.data := None |}
              (Sample.heap []) "alice.eth" "bob.eth" () () ()
              {| hash := "0xhash" |} eq_refl eq_refl eq_refl)).
Defined.

Lemma setApprovalForAll_returns_hash_witness :
  (setApprovalForAll (Sample.walletClient VUndefined)
     {| SetApprovalForAllParameters.tokenAddress := "0xAAA";
        SetApprovalForAllParameters.operator := "bob.eth";
        SetApprovalForAllParameters.approved := true |}
     (Sample.heap [])).1 = inr "0xhash".
Proof.
  apply (f_equal fst
           (setApprovalForAll_returns_hash (Sample.walletClient VUndefined)
              {| SetApprovalForAllParameters.tokenAddress := "0xAAA";
                 SetApprovalForAllParameters.operator := "bob.eth";
                 SetApprovalForAllParameters.approved := true |}
              (Sample.heap []) "bob.eth" () () {| hash := "0xhash" |}
              eq_refl eq_refl)).
Defined.

Lemma returning_means_no_call_failed_witness :
  let i := BalanceOf {| BalanceOfParameters.tokenAddress := "0xAAA";
                        BalanceOfParameters.owner := "alice.eth";
                        BalanceOfParameters.id := VNumber 1 |} in
  let walletClient := Sample.walletClient (VBigInt 5) in
  ∃ new, trace (invoke walletClient i (Sample.heap [])).2 = [] ++ new
         ∧ first_failure new = None
         ∧ Forall (λ entry, entry.2 = None) new.
Proof.
  apply (returning_means_no_call_failed (Sample.walletClient (VBigInt 5))
           (BalanceOf {| BalanceOfParameters.tokenAddress := "0xAAA";
                         BalanceOfParameters.owner := "alice.eth";
                         BalanceOfParameters.id := VNumber 1 |})
           (Sample.heap [])).
  reflexivity.
Defined.


Lemma sequential_methods_stop_at_first_failure_witness :
  let i := SafeTransferFrom
             {| SafeTransferFromParameters.tokenAddress := "0xAAA";
                SafeTransferFromParameters.from := "alice.eth";
                SafeTransferFromParameters.to := "bob.eth";
                SafeTransferFromParameters.id := VNumber 1;
                SafeTransferFromParameters.value := VNumber 10;
                SafeTransferFromParameters.data := None |} in
  ∃ new, trace (invoke Sample.rejectingClient i (Sample.heap [])).2 = [] ++ new
         ∧ ∀ k entry, new !! k = Some entry → S k < length new →
                      entry.2 = None.
Proof.
  apply (sequential_methods_stop_at_first_failure Sample.rejectingClient
           (SafeTransferFrom
              {| SafeTransferFromParameters.tokenAddress := "0xAAA";
                 SafeTransferFromParameters.from := "alice.eth";
                 SafeTransferFromParameters.to := "bob.eth";
                 SafeTransferFromParameters.id := VNumber 1;
                 SafeTransferFromParameters.value := VNumber 10;
                 SafeTransferFromParameters.data := None |})
           (Sample.heap [])).
  intros p. discriminate.
Defined.

Lemma wallet_methods_ignore_the_registry_witness :
  let i := BalanceOf {| BalanceOfParameters.tokenAddress := "0xAAA";
                        BalanceOfParameters.owner := "alice.eth";
                        BalanceOfParameters.id := VNumber 1 |} in
  let walletClient := Sample.walletClient (VBigInt 5) in
  let h := Sample.heap [] in
  let h' := {| this := constructor (Some [Sample.GOLD]);
               client := client h; trace := trace h |} in
  (invoke walletClient i h').1 = (invoke walletClient i h).1
  ∧ client (invoke walletClient i h').2 = client (invoke walletClient i h).2
  ∧ trace (invoke walletClient i h').2 = trace (invoke walletClient i h).2.
Proof.
  apply (wallet_methods_ignore_the_registry (Sample.walletClient (VBigInt 5))
           (BalanceOf {| BalanceOfParameters.tokenAddress := "0xAAA";
                         BalanceOfParameters.owner := "alice.eth";
                         BalanceOfParameters.id := VNumber 1 |})
           "Failed to fetch balance: " (Sample.heap [])
           (constructor (Some [Sample.GOLD]))).
  reflexivity.
Defined.
Lemma lookup_returns_registered_data_witness :
  let p := {| GetTokenInfoBySymbolParameters.symbol := "gold" |} in
  let h := Sample.heap [Sample.SILVER; Sample.GOLD] in
  let info := info_of Sample.GOLD "0xAAA" in
  ∃ token chain w,
    token ∈ tokens (this h)
    ∧ first_match "gold" (tokens (this h)) token
    ∧ getChain (Sample.walletClient VUndefined) (client h) = (inr chain, w)
    ∧ chains token !! chain_id chain = Some {| contractAddress := "0xAAA" |}
    ∧ "0xAAA" ≠ ""
    ∧ info = info_of token "0xAAA"
    ∧ ("gold" = "GOLD" ∨ "gold" = toLowerCase "GOLD").
Proof.
  exact (lookup_returns_registered_data (Sample.walletClient VUndefined)
           {| GetTokenInfoBySymbolParameters.symbol := "gold" |}
           (Sample.heap [Sample.SILVER; Sample.GOLD])
           (info_of Sample.GOLD "0xAAA") eq_refl).
Defined.

Lemma lookup_passes_on_what_getChain_throws_witness :
  getTokenInfoBySymbol Sample.chainlessClient
    {| GetTokenInfoBySymbolParameters.symbol := "gold" |}
    (Sample.heap [Sample.GOLD])
  = (inl (ErrorObject "Error" "chain unavailable"),
     {| this := constructor (Some [Sample.GOLD]); client := ();
        trace := [(CallGetChain,
                   Some (ErrorObject "Error" "chain unavailable"))] |}).
Proof.
  apply (lookup_passes_on_what_getChain_throws Sample.chainlessClient
           {| GetTokenInfoBySymbolParameters.symbol := "gold" |}
           (Sample.heap [Sample.GOLD]) Sample.GOLD
           (ErrorObject "Error" "chain unavailable") ()).
  - apply list_elem_of_here.
  - right. reflexivity.
  - reflexivity.
Defined.

Lemma lookup_calls_getChain_when_matched_witness :
  (getTokenInfoBySymbol (Sample.walletClient VUndefined)
     {| GetTokenInfoBySymbolParameters.symbol := "COPPER" |}
     (Sample.heap [Sample.GOLD])).2 = Sample.heap [Sample.GOLD]
  ∧ trace (getTokenInfoBySymbol (Sample.walletClient VUndefined)
             {| GetTokenInfoBySymbolParameters.symbol := "GOLD" |}
             (Sample.heap [Sample.GOLD])).2
    = [(CallGetChain, None)].
Proof.
  split.
  - apply (proj1 (lookup_calls_getChain_when_matched
                    (Sample.walletClient VUndefined)
                    {| GetTokenInfoBySymbolParameters.symbol := "COPPER" |}
                    (Sample.heap [Sample.GOLD]))).
    repeat constructor; intros [?|?]; discriminate.
  - apply (proj2 (lookup_calls_getChain_when_matched
                    (Sample.walletClient VUndefined)
                    {| GetTokenInfoBySymbolParameters.symbol := "GOLD" |}
                    (Sample.heap [Sample.GOLD])) Sample.GOLD).
    + apply list_elem_of_here.
    + left. reflexivity.
Defined.

Lemma lookup_in_default_registry_witness :
  getTokenInfoBySymbol (Sample.walletClient VUndefined)
    {| GetTokenInfoBySymbolParameters.symbol := "GOLD" |}
    {| this := constructor None; client := (); trace := [] |}
  = (inl (Error "Token with symbol GOLD not found"),
     {| this := constructor None; client := (); trace := [] |}).
Proof.
  exact (lookup_in_default_registry (Sample.walletClient VUndefined) "GOLD"
           {| this := constructor None; client := (); trace := [] |} eq_refl).
Defined.

Lemma lookup_stable_under_append_witness :
  let p := {| GetTokenInfoBySymbolParameters.symbol := "gold" |} in
  let q := {| GetTokenInfoBySymbolParameters.symbol := "silver" |} in
  let walletClient := Sample.walletClient VUndefined in
  (getTokenInfoBySymbol walletClient p
     (Sample.heap ([Sample.GOLD] ++ [Sample.gold]))).1
  = (getTokenInfoBySymbol walletClient p (Sample.heap [Sample.GOLD])).1
  ∧ (getTokenInfoBySymbol walletClient q
       (Sample.heap ([Sample.GOLD] ++ [Sample.SILVER]))).1
    = (getTokenInfoBySymbol walletClient q (Sample.heap [Sample.SILVER])).1.
Proof.
  split.
  - apply (proj1 (lookup_stable_under_append (Sample.walletClient VUndefined)
                    {| GetTokenInfoBySymbolParameters.symbol := "gold" |}
                    (Sample.heap [Sample.GOLD]) [Sample.gold]) Sample.GOLD).
    exists [], []. split_and!; [reflexivity|by right|constructor].
  - apply (proj2 (lookup_stable_under_append (Sample.walletClient VUndefined)
                    {| GetTokenInfoBySymbolParameters.symbol := "silver" |}
                    (Sample.heap [Sample.GOLD]) [Sample.SILVER])).
    repeat constructor; intros [?|?]; discriminate.
Defined.


Lemma balanceOfBatch_needs_an_array_witness :
  let p := {| BalanceOfBatchParameters.tokenAddress := "0xAAA";
              BalanceOfBatchParameters.owners := ["alice.eth"];
              BalanceOfBatchParameters.ids := [VNumber 1] |} in
  ∃ text,
    (balanceOfBatch (Sample.walletClient (VBigInt 5)) p (Sample.heap [])).1
    = inl (Error ("Failed to fetch batch balances: "
                  +:+ toString (ErrorObject "TypeError" text))).
Proof.
  apply (balanceOfBatch_needs_an_array (Sample.walletClient (VBigInt 5))
           {| BalanceOfBatchParameters.tokenAddress := "0xAAA";
              BalanceOfBatchParameters.owners := ["alice.eth"];
              BalanceOfBatchParameters.ids := [VNumber 1] |}
           (Sample.heap []) ["alice.eth"] {| value := VBigInt 5 |} ()).
  - reflexivity.
  - reflexivity.
  - intros raw. discriminate.
Defined.

(** C4, as stated, fails in its second part: the query [gold] matches the
    registered descriptor [gold_on_137], which has no contract address for
    chain 1, the chain of the wallet client; yet the lookup does not fail:
    it returns the fields of [GOLD], which comes first in the list and whose
    lowercase symbol is the query. *)
Lemma lookup_succeeds_past_a_descriptor_without_address :
  let D := Sample.gold_on_137 in
  let h := Sample.heap [Sample.GOLD; D] in
  let walletClient := Sample.walletClient VUndefined in
  D ∈ tokens (this h)
  ∧ matches "gold" D
  ∧ getChain walletClient (client h) = (inr {| chain_id := 1 |}, ())
  ∧ contractAddress_on D {| chain_id := 1 |} = None
  ∧ (getTokenInfoBySymbol walletClient
       {| GetTokenInfoBySymbolParameters.symbol := "gold" |} h).1
    = inr (info_of Sample.GOLD "0xAAA")
  ∧ (getTokenInfoBySymbol walletClient
       {| GetTokenInfoBySymbolParameters.symbol := "gold" |} h).1
    ≠ inl (Error (not_found_on_chain_message "gold" {| chain_id := 1 |})).
Proof.
  split_and!; [|by left|done..].
  apply list_elem_of_further, list_elem_of_here.
Qed.

(** Two promises rejected, the second one first: the error names it. *)
Example balanceOfBatch_reports_the_first_rejection_in_time :
  (balanceOfBatch Sample.racingClient
     {| BalanceOfBatchParameters.tokenAddress := "0xAAA";
        BalanceOfBatchParameters.owners := ["slow.eth"; "fast.eth"];
        BalanceOfBatchParameters.ids := [VNumber 1; VNumber 2] |}
     (Sample.heap [])).1
  = inl (Error "Failed to fetch batch balances: Error: fast.eth failed").
Proof. reflexivity. Qed.

(** A thrown [Symbol]: the template literal of the [catch] block throws. *)
Example safeTransferFrom_cannot_print_a_symbol :
  (safeTransferFrom Sample.symbolClient
     {| SafeTransferFromParameters.tokenAddress := "0xAAA";
        SafeTransferFromParameters.from := "alice.eth";
        SafeTransferFromParameters.to := "bob.eth";
        SafeTransferFromParameters.id := VNumber 1;
        SafeTransferFromParameters.value := VNumber 10;
        SafeTransferFromParameters.data := None |}
     (Sample.heap [])).1
  = inl (ErrorObject "TypeError" "Cannot convert a Symbol value to a string").
Proof. reflexivity. Qed.

Lemma balanceOfBatch_resolves_every_owner_witness :
  let p := {| BalanceOfBatchParameters.tokenAddress := "0xAAA";
              BalanceOfBatchParameters.owners := ["slow.eth"; "fast.eth"];
              BalanceOfBatchParameters.ids := [VNumber 1; VNumber 2] |} in
  let walletClient := Sample.racingClient in
  let h := Sample.heap [] in
  let first := ErrorObject "Error" "fast.eth failed" in
  (∀ owner w, resolveAddress_throws walletClient owner w = false)
  ∧ ∃ new, trace (balanceOfBatch walletClient p h).2 = trace h ++ new
      ∧ take 2 new.*1
        = [CallResolveAddress "slow.eth"; CallResolveAddress "fast.eth"]
      ∧ new.*1
        = [CallResolveAddress "slow.eth"; CallResolveAddress "fast.eth"]
      ∧ (balanceOfBatch walletClient p h).1
        = inl (rethrown "Failed to fetch batch balances: " first)
      ∧ inl first ∈ (resolve_each walletClient ["slow.eth"; "fast.eth"] ()).1
      ∧ ∃ c, (c, Some first) ∈ new.
Proof.
  split; [done|].
  apply (balanceOfBatch_resolves_every_owner Sample.racingClient
           {| BalanceOfBatchParameters.tokenAddress := "0xAAA";
              BalanceOfBatchParameters.owners := ["slow.eth"; "fast.eth"];
              BalanceOfBatchParameters.ids := [VNumber 1; VNumber 2] |}
           (Sample.heap [])).
  done.
Defined.

End More_concrete_runs.
